(** * Pricing core of the DEX aggregator: a shallow embedding

    The development follows the TypeScript sources:
      - [BabydogeSwap] ([src/dex/babydoge/babydoge.ts]): the constant-product
        quote kernel and the adapter built on it;
      - [SDai] ([src/dex/sdai/sdai.ts]): the 1:1 DAI/sDAI adapter;
      - [PricingHelper] (the pricing coordinator): [getPoolIdentifiers] and
        [getPoolPrices] with their deadlines, error isolation, rollup gas
        overlay and validation pass.

    Conventions.  A [bigint] is a [Z]; the BigInt operator [/] truncates
    toward zero and is [Z.quot].  Strings are [string]; objects used as
    dictionaries are [gmap string _].  A JavaScript [number] is kept
    abstract behind the class [JsNumber], so that no statement depends on
    IEEE rounding. *)

From Stdlib Require Import ZArith Lia Ascii String.
From stdpp Require Import base option list gmap strings fin_maps.

Local Open Scope Z_scope.

(** ** Tokens and sides *)

Inductive SwapSide := SELL | BUY.

#[global] Instance SwapSide_eq_dec : EqDecision SwapSide.
Proof. solve_decision. Defined.

Record Token := mkToken {
  address : string;
  decimals : nat;
}.

(** ** The constant-product kernel of [BabydogeSwap] *)

Module BabydogeMath.

(** [const RESERVE_LIMIT = 2n ** 112n - 1n]. *)
Definition RESERVE_LIMIT : Z := 2 ^ 112 - 1.

(** [feeFactor = 10000]. *)
Definition feeFactor : Z := 10000.

(** [interface BabydogeSwapPoolOrderedParams].  The source keeps the
    reserves and the fee as decimal strings ([reservesIn: string],
    [fee: string]) and reads them back with [BigInt(..)] and
    [parseInt(..)]; they are the integers those strings denote. *)
Record BabydogeSwapPoolOrderedParams := mkParams {
  tokenIn : string;
  tokenOut : string;
  reservesIn : Z;
  reservesOut : Z;
  fee : Z;
  direction : bool;
  exchange : string;
}.

(** [getBuyPrice(priceParams, destAmount)]. *)
Definition getBuyPrice (priceParams : BabydogeSwapPoolOrderedParams)
    (destAmount : Z) : Z :=
  let numerator := reservesIn priceParams * destAmount * feeFactor in
  let denominator :=
    (feeFactor - fee priceParams) * (reservesOut priceParams - destAmount) in
  if denominator <=? 0 then 0
  else if numerator =? 0 then 0 else 1 + numerator ÷ denominator.

(** [getSellPrice(priceParams, srcAmount)]. *)
Definition getSellPrice (priceParams : BabydogeSwapPoolOrderedParams)
    (srcAmount : Z) : Z :=
  if RESERVE_LIMIT <? reservesIn priceParams + srcAmount then 0
  else
    let amountInWithFee := srcAmount * (feeFactor - fee priceParams) in
    let numerator := amountInWithFee * reservesOut priceParams in
    let denominator := reservesIn priceParams * feeFactor + amountInWithFee in
    if denominator =? 0 then 0 else numerator ÷ denominator.

(** [getBuyPricePath(amount, params)]: folds [getBuyPrice] over
    [params.reverse()]. *)
Definition getBuyPricePath (amount : Z)
    (params : list BabydogeSwapPoolOrderedParams) : Z :=
  fold_left (fun price param => getBuyPrice param price) (rev params) amount.

(** [getSellPricePath(amount, params)]. *)
Definition getSellPricePath (amount : Z)
    (params : list BabydogeSwapPoolOrderedParams) : Z :=
  fold_left (fun price param => getSellPrice param price) params amount.

(** The pool of the spec's kernel [getAmountOut(x, r_in, r_out, fee)] /
    [getAmountIn(y, r_in, r_out, fee)]: only the reserves and the fee
    matter to the two quotes. *)
Definition pool (r_in r_out f : Z) : BabydogeSwapPoolOrderedParams :=
  mkParams EmptyString EmptyString r_in r_out f true EmptyString.

Definition getAmountOut (x r_in r_out f : Z) : Z :=
  getSellPrice (pool r_in r_out f) x.

Definition getAmountIn (y r_in r_out f : Z) : Z :=
  getBuyPrice (pool r_in r_out f) y.

End BabydogeMath.

(** ** JavaScript values seen by the coordinator *)

(** A JavaScript [number].  Gas costs and the rollup ratio are numbers; the
    coordinator only adds them, multiplies them, takes [Math.ceil], tests
    [x === 0] and tests truthiness, so these operations are the interface. *)
Class JsNumber := {
  number : Type;
  num_add : number → number → number;      (* [a + b] *)
  num_mul : number → number → number;      (* [a * b] *)
  num_ceil : number → number;              (* [Math.ceil(a)] *)
  num_is_zero : number → bool;             (* [a === 0] *)
  num_truthy : number → bool;              (* [!!a]: false for 0 and NaN *)
}.

(** The numbers that are integers of absolute value below 2^53 behave as
    [Z]; this instance is used to run the model on concrete requests. *)
Definition SafeInteger : JsNumber := {|
  number := Z;
  num_add := Z.add;
  num_mul := Z.mul;
  num_ceil := fun z => z;
  num_is_zero := fun z => z =? 0;
  num_truthy := fun z => negb (z =? 0);
|}.

(** A thrown value or rejection reason.  The coordinator reads only its
    [message]; the value is taken to be an object (an [Error] or anything
    else that is not [null] or [undefined]), whose [message] may be
    missing. *)
Record JsError := mkError { message : option string }.

Definition Error (msg : string) : JsError := mkError (Some msg).

(** The outcome of a synchronous computation, or of a settled promise. *)
Inductive Try (A : Type) : Type :=
| Return (a : A)
| Throw (e : JsError).
Arguments Return {A} a.
Arguments Throw {A} e.

#[global] Instance Try_ret : MRet Try := fun _ a => Return a.
#[global] Instance Try_bind : MBind Try := fun _ _ k m =>
  match m with Return a => k a | Throw e => Throw e end.
#[global] Instance Try_fmap : FMap Try := fun _ _ f m =>
  match m with Return a => Return (f a) | Throw e => Throw e end.

(** [try { body } catch (e) { handler }]. *)
Definition tryCatch {A} (body : Try A) (handler : JsError → Try A) : Try A :=
  match body with Return a => Return a | Throw e => handler e end.

(** A promise, by the moment it settles: [ms] milliseconds after it was
    created ([0]: within the tick that created it, before any timer can
    run), or never. *)
Inductive Promise (A : Type) : Type :=
| SettlesAfter (ms : N) (outcome : Try A)
| Pending.
Arguments SettlesAfter {A} ms outcome.
Arguments Pending {A}.

(** [p.then(onFulfilled, reject)] with a synchronous [onFulfilled] that
    either resolves or rejects the outer promise. *)
Definition promise_then {A B} (p : Promise A) (onFulfilled : A → Try B)
    : Promise B :=
  match p with
  | SettlesAfter ms outcome => SettlesAfter ms (outcome ≫= onFulfilled)
  | Pending => Pending
  end.

(** [await new Promise((resolve, reject) => { const timer = setTimeout(() =>
    reject(new Error(`Timeout`)), timeout); ... })]: the first settlement
    wins.  The timer is armed before the work starts, so work that settles
    [ms >= timeout] milliseconds later loses to it, except work that
    settles within the same tick. *)
Definition awaitWithTimeout {A} (timeout : N) (work : Promise A) : Try A :=
  match work with
  | SettlesAfter ms outcome =>
      if (ms =? 0)%N || (ms <? timeout)%N then outcome
      else Throw (Error "Timeout")
  | Pending => Throw (Error "Timeout")
  end.

(** ** [./types] *)

Module Types.

(** [TransferFeeParams]: basis-point fees. *)
Record TransferFeeParams := mkFees {
  srcFee : Z;
  destFee : Z;
  srcDexFee : Z;
  destDexFee : Z;
}.

(** The venue payloads ([PoolPrices<any>]) of the adapters embedded here:
    [SDai] sends [data: null], [BabydogeSwap] its route description. *)
Record BabydogeSwapPool := mkPool {
  pool_address : string;
  pool_fee : Z;
  pool_direction : bool;
}.

Record BabydogeSwapData := mkData {
  router : string;
  path : list string;
  factory : string;
  data_feeFactor : Z;
  pools : list BabydogeSwapPool;
}.

Inductive DexData :=
| NullData
| BabydogeData (d : BabydogeSwapData)
| OtherData (payload : string).

Section WithNumbers.
Context `{JsNumber}.

(** [gasCost: number | number[]]. *)
Inductive GasCost :=
| GasScalar (g : number)
| GasArray (gs : list number).

(** [PoolPrices<T>]; [None] is an absent optional field. *)
Record PoolPrices := mkPoolPrices {
  prices : list Z;
  unit : Z;
  gasCost : GasCost;
  gasCostL2 : option GasCost;
  exchange : string;
  poolIdentifier : option string;
  poolAddresses : option (list string);
  data : DexData;
}.

Definition set_gasCost (g : GasCost) (pp : PoolPrices) : PoolPrices :=
  mkPoolPrices (prices pp) (unit pp) g (gasCostL2 pp) (exchange pp)
    (poolIdentifier pp) (poolAddresses pp) (data pp).

Definition set_gasCostL2 (g : GasCost) (pp : PoolPrices) : PoolPrices :=
  mkPoolPrices (prices pp) (unit pp) (gasCost pp) (Some g) (exchange pp)
    (poolIdentifier pp) (poolAddresses pp) (data pp).

(** [ExchangePrices<T> = PoolPrices<T>[]]: an array of references to
    [PoolPrices] objects.  [objects] are the distinct objects and
    [slots] the array, each slot naming an object by its index: two
    slots with the same index hold the same object, so that a write
    through one is seen through the other. *)
Record ExchangePrices := mkExchangePrices {
  objects : list PoolPrices;
  slots : list nat;
}.

(** An array literal of freshly built objects. *)
Definition fresh (pps : list PoolPrices) : ExchangePrices :=
  mkExchangePrices pps (seq 0 (length pps)).

(** The objects of the array, slot by slot. *)
Definition quotes (ep : ExchangePrices) : list PoolPrices :=
  omap (fun r => objects ep !! r) (slots ep).

End WithNumbers.

(** [ImprovedPoolPrice<T>]: [{dexKey, poolId, prices: PoolPrices | null}].
    [P] is what [prices] holds: a reference while the objects may still
    be written, the object's content once they are final. *)
Module Envelope.
Record ImprovedPoolPrice (P : Type) := mk {
  dexKey : string;
  poolId : string;
  prices : option P;
}.
Arguments mk {P} dexKey poolId prices.
Arguments dexKey {P} i.
Arguments poolId {P} i.
Arguments prices {P} i.
End Envelope.

End Types.

Import Types.

(** ** Strings *)

(** [String.prototype.toLowerCase] on the ASCII letters, which is all an
    address (a hexadecimal string) contains. *)
Definition lower_ascii (c : ascii) : ascii :=
  let n := N_of_ascii c in
  if (65 <=? n)%N && (n <=? 90)%N then ascii_of_N (n + 32) else c.

Fixpoint toLowerCase (s : string) : string :=
  match s with
  | EmptyString => EmptyString
  | String c rest => String (lower_ascii c) (toLowerCase rest)
  end.

(** [[a, b].sort((x, y) => (x > y ? 1 : -1)).join('_')] on a pair. *)
Definition sortedPairJoin (a b : string) : string :=
  if String.ltb b a then b +:+ "_" +:+ a else a +:+ "_" +:+ b.

(** ** [./dex/idex]: the capability surface of an adapter *)

Module IDex.
Section WithNumbers.
Context `{JsNumber}.

Record t := mk {
  hasConstantPriceLargeAmounts : bool;
  isFeeOnTransferSupported : bool;
  getPoolIdentifiers :
    Token → Token → SwapSide → N → Promise (list string);
  getPricesVolume :
    Token → Token → list Z → SwapSide → N → option (list string) →
    TransferFeeParams → Promise (option ExchangePrices);
  getCalldataGasCost : PoolPrices → Try GasCost;
}.
End WithNumbers.
End IDex.

(** ** Helpers of the repository that are not among the sources *)

(** Modelled from the spec: [isSrcTokenTransferFeeToBeExchanged] of
    [./utils] is missing; section 3 says a source-side transfer fee is in
    play when [srcFee > 0] or [srcDexFee > 0]. *)
Definition isSrcTokenTransferFeeToBeExchanged (transferFees : TransferFeeParams)
    : bool :=
  (0 <? srcFee transferFees) || (0 <? srcDexFee transferFees).

(** Modelled from the spec: [BI_POWS] of [./bigint-constants] and
    [getBigIntPow] of [./utils] are missing; they are the powers of ten used
    for one whole unit of a token with the given decimals (section 3,
    [unit]). *)
Definition BI_POWS (n : nat) : Z := 10 ^ Z.of_nat n.
Definition getBigIntPow (decimals : nat) : Z := 10 ^ Z.of_nat decimals.

Section ToImproved.
Context `{JsNumber}.

(** Modelled from the spec: [toImprovedPoolPrices] of [./types] is
    missing; section 4.7 gives it: if [pps] is null or empty, the single
    envelope [{dexKey, poolId: (empty string), prices: null}]; else one
    envelope per pool with [poolId = pp.poolIdentifier], or the empty
    string when there is none, and [prices = pp]. *)
Definition toImprovedPoolPrices (dexKey : string)
    (pps : option ExchangePrices) : list (Envelope.ImprovedPoolPrice nat) :=
  match pps with
  | None => [Envelope.mk dexKey EmptyString None]
  | Some ep =>
      match slots ep with
      | [] => [Envelope.mk dexKey EmptyString None]
      | _ =>
          map (fun r =>
                 Envelope.mk dexKey
                   (default EmptyString (objects ep !! r ≫= poolIdentifier))
                   (Some r))
              (slots ep)
      end
  end.

(** What an envelope shows once its object is read. *)
Definition snapshot (objs : list PoolPrices)
    (p : Envelope.ImprovedPoolPrice nat)
    : Envelope.ImprovedPoolPrice PoolPrices :=
  Envelope.mk (Envelope.dexKey p) (Envelope.poolId p)
    (Envelope.prices p ≫= fun r => objs !! r).

End ToImproved.

(** ** [SDai] ([src/dex/sdai/sdai.ts]) *)

Module SDai.
Section WithNumbers.
Context `{JsNumber}.

(** [SDAI_GAS_COST] of [./constants] and
    [CALLDATA_GAS_COST.DEX_NO_PAYLOAD] are constants declared outside
    the sources; both are numbers. *)
Variable SDAI_GAS_COST : number.
Variable DEX_NO_PAYLOAD : number.

Record t := mk {
  dexKey : string;
  sdaiAddress : string;
  daiAddress : string;
  unitPrice : Z;
}.

(** The constructor with its default [unitPrice = BI_POWS[18]]. *)
Definition new (dexKey sdaiAddress daiAddress : string) : t :=
  mk dexKey sdaiAddress daiAddress (BI_POWS 18).

Definition isSDai (self : t) (tokenAddress : string) : bool :=
  bool_decide (toLowerCase (sdaiAddress self) = toLowerCase tokenAddress).

Definition isDai (self : t) (tokenAddress : string) : bool :=
  bool_decide (toLowerCase (daiAddress self) = toLowerCase tokenAddress).

Definition isAppropriatePair (self : t) (srcToken destToken : Token)
    : bool :=
  (isDai self (address srcToken) && isSDai self (address destToken))
  || (isDai self (address destToken) && isSDai self (address srcToken)).

Definition getPoolIdentifiers (self : t) (srcToken destToken : Token)
    (side : SwapSide) (blockNumber : N) : Promise (list string) :=
  SettlesAfter 0
    (Return
       (if isAppropriatePair self srcToken destToken
        then [dexKey self +:+ "_" +:+ address srcToken +:+ "_"
                +:+ address destToken]
        else [])).

(** The quote of [getPricesVolume]: [prices: amounts], no
    [poolIdentifier], [data: null]. *)
Definition quote (self : t) (amounts : list Z) : PoolPrices :=
  {| prices := amounts;
     unit := unitPrice self;
     gasCost := GasScalar SDAI_GAS_COST;
     gasCostL2 := None;
     exchange := dexKey self;
     poolIdentifier := None;
     poolAddresses := Some [sdaiAddress self];
     data := NullData |}.

Definition getPricesVolume (self : t) (srcToken destToken : Token)
    (amounts : list Z) (side : SwapSide) (blockNumber : N)
    (limitPools : option (list string))
    : Promise (option (list PoolPrices)) :=
  SettlesAfter 0
    (Return
       (if negb (isAppropriatePair self srcToken destToken) then None
        else Some [quote self amounts])).

Definition getCalldataGasCost (self : t) (poolPrices : PoolPrices)
    : Try GasCost :=
  Return (GasScalar DEX_NO_PAYLOAD).

(** The adapter as the coordinator holds it; the array it returns is
    an array literal of new objects. *)
Definition asDex (self : t) : IDex.t :=
  {| IDex.hasConstantPriceLargeAmounts := true;
     IDex.isFeeOnTransferSupported := false;
     IDex.getPoolIdentifiers := getPoolIdentifiers self;
     IDex.getPricesVolume := fun s d amounts side b limitPools _ =>
       promise_then (getPricesVolume self s d amounts side b limitPools)
         (fun r => Return (fresh <$> r));
     IDex.getCalldataGasCost := getCalldataGasCost self |}.

End WithNumbers.
End SDai.

(** ** [BabydogeSwap] ([src/dex/babydoge/babydoge.ts]) *)

Module BabydogeSwap.
Import BabydogeMath.

Section WithNumbers.
Context `{JsNumber}.

(** [CALLDATA_GAS_COST.DEX_OVERHEAD], declared outside the sources. *)
Variable DEX_OVERHEAD : number.

(** The adapter and what it reads from its surroundings:
    [wrapETH] is [this.dexHelper.config.wrapETH];
    [pairOrderedParams from to blockNumber] is what
    [await this.batchCatchUpPairs([[from, to]], blockNumber)] followed
    by [await this.getPairOrderedParams(from, to, blockNumber)] yields:
    it depends on the factory contract, the pair cache and the event
    pool's state at that block, and may take time, fail or hang. *)
Record t := mk {
  dexKey : string;
  router : string;
  factoryAddress : string;
  poolGasCost : number;
  wrapETH : Token → Token;
  pairOrderedParams :
    Token → Token → N → Promise (option BabydogeSwapPoolOrderedParams);
}.

Definition poolIdentifierOf (self : t) (from to : Token) : string :=
  dexKey self +:+ "_"
    +:+ sortedPairJoin (toLowerCase (address from))
          (toLowerCase (address to)).

Definition getPoolIdentifiers (self : t) (_from _to : Token)
    (side : SwapSide) (blockNumber : N) : Promise (list string) :=
  let from := wrapETH self _from in
  let to := wrapETH self _to in
  SettlesAfter 0
    (Return
       (if bool_decide
             (toLowerCase (address from) = toLowerCase (address to))
        then []
        else [poolIdentifierOf self from to])).

(** The quote built once [pairParam] is known. *)
Definition quote (self : t) (from to : Token) (amounts : list Z)
    (side : SwapSide) (pairParam : BabydogeSwapPoolOrderedParams)
    : PoolPrices :=
  let unitAmount :=
    getBigIntPow
      (if decide (side = BUY) then decimals to else decimals from) in
  {| prices :=
       if decide (side = BUY)
       then map (fun amount => getBuyPricePath amount [pairParam]) amounts
       else map (fun amount => getSellPricePath amount [pairParam]) amounts;
     unit :=
       if decide (side = BUY)
       then getBuyPricePath unitAmount [pairParam]
       else getSellPricePath unitAmount [pairParam];
     gasCost := GasScalar (poolGasCost self);
     gasCostL2 := None;
     Types.exchange := dexKey self;
     poolIdentifier := Some (poolIdentifierOf self from to);
     poolAddresses := Some [BabydogeMath.exchange pairParam];
     data :=
       BabydogeData
         {| Types.router := router self;
            path := [toLowerCase (address from); toLowerCase (address to)];
            factory := factoryAddress self;
            data_feeFactor := feeFactor;
            pools :=
              [ {| pool_address := BabydogeMath.exchange pairParam;
                   pool_fee := fee pairParam;
                   pool_direction := direction pairParam |} ] |} |}.

(** [getPricesVolume]; its body is one [try] whose [catch] logs and
    returns [null]. *)
Definition getPricesVolume (self : t) (_from _to : Token)
    (amounts : list Z) (side : SwapSide) (blockNumber : N)
    (limitPools : option (list string))
    : Promise (option (list PoolPrices)) :=
  let from := wrapETH self _from in
  let to := wrapETH self _to in
  if bool_decide (toLowerCase (address from) = toLowerCase (address to))
  then SettlesAfter 0 (Return None)
  else
    let poolIdentifier := poolIdentifierOf self from to in
    let excluded :=
      match limitPools with
      | Some ps => forallb (fun p => bool_decide (p ≠ poolIdentifier)) ps
      | None => false
      end in
    if excluded then SettlesAfter 0 (Return None)
    else
      match pairOrderedParams self from to blockNumber with
      | Pending => Pending
      | SettlesAfter ms (Throw e) => SettlesAfter ms (Return None)
      | SettlesAfter ms (Return None) => SettlesAfter ms (Return None)
      | SettlesAfter ms (Return (Some pairParam)) =>
          SettlesAfter ms
            (Return (Some [quote self from to amounts side pairParam]))
      end.

Definition getCalldataGasCost (self : t) (poolPrices : PoolPrices)
    : Try GasCost :=
  Return (GasScalar DEX_OVERHEAD).

Definition asDex (self : t) : IDex.t :=
  {| IDex.hasConstantPriceLargeAmounts := false;
     IDex.isFeeOnTransferSupported := true;
     IDex.getPoolIdentifiers := getPoolIdentifiers self;
     IDex.getPricesVolume := fun s d amounts side b limitPools _ =>
       promise_then (getPricesVolume self s d amounts side b limitPools)
         (fun r => Return (fresh <$> r));
     IDex.getCalldataGasCost := getCalldataGasCost self |}.

End WithNumbers.
End BabydogeSwap.

(** ** [PricingHelper]: the pricing coordinator *)

Module PricingHelper.
Section WithService.
Context `{JsNumber}.

(** [this.dexAdapterService.getDexByKey]: the adapter of a key, or the
    error thrown for a key that is not registered. *)
Variable getDexByKey : string → Try IDex.t.

(** The deadlines of [./constants], in milliseconds. *)
Variable FETCH_POOL_IDENTIFIER_TIMEOUT : N.
Variable FETCH_POOL_PRICES_TIMEOUT : N.

(** *** [getPoolIdentifiers] *)

(** The work started by the executor of [new Promise<string[] |
    null>((resolve, reject) => { ... })], without its timer. *)
Definition identifiersTask (from to : Token) (side : SwapSide)
    (blockNumber : N) (filterConstantPricePool : bool) (key : string)
    : Promise (option (list string)) :=
  match getDexByKey key with
  | Throw e => SettlesAfter 0 (Throw e)
  | Return dexInstance =>
      if filterConstantPricePool
         && IDex.hasConstantPriceLargeAmounts dexInstance
      then SettlesAfter 0 (Return None)
      else
        promise_then
          (IDex.getPoolIdentifiers dexInstance from to side blockNumber)
          (fun ids => Return (Some ids))
  end.

(** The body of [dexKeys.map(async key => { try ... catch ... })]. *)
Definition poolIdentifiersOf (from to : Token) (side : SwapSide)
    (blockNumber : N) (filterConstantPricePool : bool) (key : string)
    : Try (option (list string)) :=
  tryCatch
    (awaitWithTimeout FETCH_POOL_IDENTIFIER_TIMEOUT
       (identifiersTask from to side blockNumber filterConstantPricePool
          key))
    (fun e => Return (Some [])).

(** [dexKeys.reduce((acc, dexKey, index) => { acc[dexKey] =
    poolIdentifiers[index]; return acc; }, {})]; [poolIdentifiers] has
    one entry per key, in the order of the keys. *)
Definition collect (dexKeys : list string)
    (poolIdentifiers : list (option (list string)))
    : gmap string (option (list string)) :=
  foldl (fun acc entry => <[entry.1 := entry.2]> acc) ∅
    (zip dexKeys poolIdentifiers).

Definition getPoolIdentifiers (from to : Token) (side : SwapSide)
    (blockNumber : N) (dexKeys : list string)
    (filterConstantPricePool : bool)
    : Try (gmap string (option (list string))) :=
  poolIdentifiers ←
    mapM (poolIdentifiersOf from to side blockNumber
            filterConstantPricePool) dexKeys;
  Return (collect dexKeys poolIdentifiers).

(** *** [getPoolPrices]: the rollup gas overlay *)

(** [g + Math.ceil(rollupL1ToL2GasRatio * l1)]. *)
Definition addL1 (ratio g l1 : number) : number :=
  num_add g (num_ceil (num_mul ratio l1)).

(** What the callback of [improvedPrices.map(pp => { ... })] does to
    the [PoolPrices] object [o = pp.prices]: the content of the object
    when the callback returns, or the error it throws.  After the
    length check both arrays have the same length, so [gasCostL1[i]]
    is defined for every [i] the inner [map] visits. *)
Definition adjustGas (ratio : number) (dexInstance : IDex.t)
    (key : string) (o : PoolPrices) : Try PoolPrices :=
  let o1 := set_gasCostL2 (gasCost o) o in
  gasCostL1 ← IDex.getCalldataGasCost dexInstance o1;
  match gasCost o1, gasCostL1 with
  | GasScalar g, GasScalar l1 =>
      Return (set_gasCost (GasScalar (addL1 ratio g l1)) o1)
  | GasArray gs, GasArray l1s =>
      if negb (length gs =? length l1s)%nat
      then
        Throw
          (Error
             ("getCalldataGasCost returned wrong array length in dex "
                +:+ key))
      else Return (set_gasCost (GasArray (zip_with (addL1 ratio) gs l1s)) o1)
  | _, _ =>
      Throw
        (Error ("getCalldataGasCost returned wrong type in dex " +:+ key))
  end.

(** One step of the [map] on the objects [objs]: the envelope [pp] is
    returned as it is ([pp.prices === null]: untouched), its object is
    written in place.  A slot always names an object; for an index
    that names none, nothing is written. *)
Definition overlayOne (ratio : number) (dexInstance : IDex.t)
    (key : string) (objs : list PoolPrices)
    (pp : Envelope.ImprovedPoolPrice nat) : Try (list PoolPrices) :=
  match Envelope.prices pp with
  | None => Return objs
  | Some r =>
      match objs !! r with
      | None => Return objs
      | Some o =>
          o' ← adjustGas ratio dexInstance key o;
          Return (<[r := o']> objs)
      end
  end.

(** The whole [map], left to right; a throw leaves it. *)
Fixpoint overlay (ratio : number) (dexInstance : IDex.t) (key : string)
    (improvedPrices : list (Envelope.ImprovedPoolPrice nat))
    (objs : list PoolPrices) : Try (list PoolPrices) :=
  match improvedPrices with
  | [] => Return objs
  | pp :: rest =>
      objs' ← overlayOne ratio dexInstance key objs pp;
      overlay ratio dexInstance key rest objs'
  end.

(** The [then] callback of [getPricesVolume]: wrap, and unless
    [!rollupL1ToL2GasRatio], overlay. *)
Definition onPoolPrices (rollupL1ToL2GasRatio : option number)
    (dexInstance : IDex.t) (key : string)
    (poolPrices : option ExchangePrices)
    : Try (list (Envelope.ImprovedPoolPrice PoolPrices)) :=
  let improvedPrices := toImprovedPoolPrices key poolPrices in
  let objs := from_option objects [] poolPrices in
  match rollupL1ToL2GasRatio with
  | Some ratio =>
      if negb (num_truthy ratio)
      then Return (snapshot objs <$> improvedPrices)
      else
        objs' ← overlay ratio dexInstance key improvedPrices objs;
        Return (snapshot objs' <$> improvedPrices)
  | None => Return (snapshot objs <$> improvedPrices)
  end.

(** *** [getPoolPrices]: one adapter *)

(** The envelope of the [catch]:
    [poolId: e.message ?? 'Error_getPoolPrices']. *)
Definition errorEnvelope (key : string) (e : JsError)
    : Envelope.ImprovedPoolPrice PoolPrices :=
  Envelope.mk key (default "Error_getPoolPrices" (message e)) None.

(** [limitPoolsMap ? limitPoolsMap[key] : null], as far as its
    truthiness and content go: a list, or nothing. *)
Definition limitPoolsOf
    (limitPoolsMap : option (gmap string (option (list string))))
    (key : string) : option (list string) :=
  match limitPoolsMap with
  | Some m => mjoin (m !! key)
  | None => None
  end.

(** The work started by the executor of [new Promise((resolve, reject)
    => { ... })], without its timer: the promise as [resolve] and
    [reject] settle it.  A throw of [getDexByKey] or of the adapter's
    method inside the executor rejects it at once. *)
Definition pricesTask (from to : Token) (amounts : list Z)
    (side : SwapSide) (blockNumber : N)
    (limitPools : option (list string))
    (transferFees : TransferFeeParams)
    (rollupL1ToL2GasRatio : option number) (key : string)
    : Promise (list (Envelope.ImprovedPoolPrice PoolPrices)) :=
  match getDexByKey key with
  | Throw e => SettlesAfter 0 (Throw e)
  | Return dexInstance =>
      if isSrcTokenTransferFeeToBeExchanged transferFees
         && negb (IDex.isFeeOnTransferSupported dexInstance)
      then
        SettlesAfter 0
          (Return
             [Envelope.mk key "isSrcTokenTransferFeeToBeExchanged_pool"
                None])
      else
        promise_then
          (IDex.getPricesVolume dexInstance from to amounts side
             blockNumber limitPools transferFees)
          (onPoolPrices rollupL1ToL2GasRatio dexInstance key)
  end.

(** The body of [dexKeys.map(async key => { try ... catch ... })]. *)
Definition poolPricesOf (from to : Token) (amounts : list Z)
    (side : SwapSide) (blockNumber : N)
    (limitPoolsMap : option (gmap string (option (list string))))
    (transferFees : TransferFeeParams)
    (rollupL1ToL2GasRatio : option number) (key : string)
    : Try (list (Envelope.ImprovedPoolPrice PoolPrices)) :=
  tryCatch
    (let limitPools := limitPoolsOf limitPoolsMap key in
     match limitPools with
     | Some [] => Return []
     | _ =>
         awaitWithTimeout FETCH_POOL_PRICES_TIMEOUT
           (pricesTask from to amounts side blockNumber limitPools
              transferFees rollupL1ToL2GasRatio key)
     end)
    (fun e => Return [errorEnvelope key e]).

(** *** [getPoolPrices]: the validation pass *)

(** [x !== 0] for [x = gasCost[i]]; a missing entry is [undefined],
    which is not [0]. *)
Definition notZero (x : option number) : bool :=
  match x with
  | Some g => negb (num_is_zero g)
  | None => true
  end.

(** [for (const [i, amount] of amounts.entries()) if (amount === 0n &&
    gasCost[i] !== 0) return false], from index [i] on: [true] when
    the loop returns. *)
Fixpoint zeroAmountWithGas (gs : list number) (i : nat)
    (amounts : list Z) : bool :=
  match amounts with
  | [] => false
  | amount :: rest =>
      if (amount =? 0) && notZero (gs !! i) then true
      else zeroAmountWithGas gs (S i) rest
  end.

(** The predicate of [.filter(p => { ... })]. *)
Definition keep (amounts : list Z)
    (p : Envelope.ImprovedPoolPrice PoolPrices) : bool :=
  match Envelope.prices p with
  | None => true
  | Some pp =>
      if negb (length (prices pp) =? length amounts)%nat then false
      else
        let badGas :=
          match gasCost pp with
          | GasArray gs =>
              if negb (length gs =? length amounts)%nat then true
              else zeroAmountWithGas gs 0 amounts
          | GasScalar _ => false
          end in
        if badGas then false
        else if forallb (fun pi => pi =? 0) (prices pp) then false
        else true
  end.

Definition validationPass (amounts : list Z)
    (l : list (Envelope.ImprovedPoolPrice PoolPrices))
    : list (Envelope.ImprovedPoolPrice PoolPrices) :=
  filter (fun p => keep amounts p) l.

(** *** [getPoolPrices] *)

Definition getPoolPrices (from to : Token) (amounts : list Z)
    (side : SwapSide) (blockNumber : N) (dexKeys : list string)
    (limitPoolsMap : option (gmap string (option (list string))))
    (transferFees : TransferFeeParams)
    (rollupL1ToL2GasRatio : option number)
    : Try (list (Envelope.ImprovedPoolPrice PoolPrices)) :=
  dexPoolPrices ←
    mapM (poolPricesOf from to amounts side blockNumber limitPoolsMap
            transferFees rollupL1ToL2GasRatio) dexKeys;
  Return (validationPass amounts (mjoin dexPoolPrices)).

End WithService.
End PricingHelper.

(** ** Vocabulary of the statements *)


(** The value of a computation that returns. *)
Definition returned {A : Type} (d : A) (t : Try A) : A :=
  match t with Return a => a | Throw _ => d end.

(** The validation rules in the words of the specification: the chunk
    count matches; a gas-cost sequence has the length of [amounts] and is
    [0] wherever the amount is [0n]; not every price is [0n]. *)
Definition wellFormedQuote `{JsNumber} (amounts : list Z) (pp : PoolPrices)
    : Prop :=
  length (prices pp) = length amounts
  ∧ (∀ gs, gasCost pp = GasArray gs →
       length gs = length amounts
       ∧ ∀ i, amounts !! i = Some 0 →
              ∃ g, gs !! i = Some g ∧ num_is_zero g = true)
  ∧ ¬ Forall (fun pi => pi = 0) (prices pp).

(** The rollup adjustment in the words of the specification: [q'] is the
    quote [q] after the overlay with ratio [ratio] and L1 cost [gasCostL1].
    The former cost is kept as [gasCostL2]; two scalars are added up; two
    sequences have one length and are added up element by element; a scalar
    against a sequence is not an overlay.  Nothing else changes. *)
Definition overlaid `{JsNumber} (ratio : number) (q : PoolPrices)
    (gasCostL1 : GasCost) (q' : PoolPrices) : Prop :=
  gasCostL2 q' = Some (gasCost q)
  ∧ match gasCost q, gasCostL1 with
    | GasScalar g, GasScalar l1 =>
        gasCost q' = GasScalar (num_add g (num_ceil (num_mul ratio l1)))
    | GasArray gs, GasArray l1s =>
        length gs = length l1s
        ∧ ∃ gs', gasCost q' = GasArray gs'
            ∧ length gs' = length gs
            ∧ ∀ i g l1, gs !! i = Some g → l1s !! i = Some l1 →
                gs' !! i = Some (num_add g (num_ceil (num_mul ratio l1)))
    | _, _ => False
    end
  ∧ prices q' = prices q ∧ unit q' = unit q ∧ exchange q' = exchange q
  ∧ poolIdentifier q' = poolIdentifier q
  ∧ poolAddresses q' = poolAddresses q ∧ data q' = data q.


(** An array whose slots hold pairwise distinct objects. *)
Definition distinctObjects `{JsNumber} (ep : ExchangePrices) : Prop :=
  NoDup (slots ep) ∧ Forall (fun r => (r < length (objects ep))%nat) (slots ep).

(** ** Concrete requests, on numbers that are safe integers *)

Module Sample.
#[local] Existing Instance SafeInteger.

Definition tokenA : Token := mkToken "0xAbC0" 18.
Definition tokenB : Token := mkToken "0xdef1" 18.
Definition noFees : TransferFeeParams := mkFees 0 0 0 0.

(** A [BabydogeSwap] whose pool has reserves (1 000 000, 2 000 000) and
    fee 30, answering after 120 ms. *)
Definition babydoge : BabydogeSwap.t :=
  BabydogeSwap.mk "BabyDogeSwap" "0xrouter" "0xfactory" (90000 : Z)
    (fun t => t)
    (fun _ _ _ =>
       SettlesAfter 120
         (Return
            (Some
               (BabydogeMath.mkParams "0xabc0" "0xdef1" 1000000 2000000 30
                  true "0xpool")))).

Definition babydogeDex : IDex.t := BabydogeSwap.asDex (70 : Z) babydoge.

(** An adapter that quotes a non-zero price for a zero amount. *)
Definition careless : IDex.t :=
  {| IDex.hasConstantPriceLargeAmounts := false;
     IDex.isFeeOnTransferSupported := true;
     IDex.getPoolIdentifiers := fun _ _ _ _ => SettlesAfter 5 (Return []);
     IDex.getPricesVolume := fun _ _ _ _ _ _ _ =>
       SettlesAfter 5
         (Return
            (Some
               (fresh
                  [ {| prices := [5; 7];
                       unit := 1;
                       gasCost := GasScalar (100 : Z);
                       gasCostL2 := None;
                       exchange := "Careless";
                       poolIdentifier := None;
                       poolAddresses := None;
                       data := OtherData EmptyString |} ])));
     IDex.getCalldataGasCost := fun _ => Return (GasScalar (50 : Z)) |}.

(** An adapter with per-chunk gas costs, and per-chunk calldata costs. *)
Definition chunked : IDex.t :=
  {| IDex.hasConstantPriceLargeAmounts := false;
     IDex.isFeeOnTransferSupported := true;
     IDex.getPoolIdentifiers := fun _ _ _ _ => SettlesAfter 5 (Return []);
     IDex.getPricesVolume := fun _ _ _ _ _ _ _ =>
       SettlesAfter 5
         (Return
            (Some
               (fresh
                  [ {| prices := [0; 9];
                       unit := 1;
                       gasCost := GasArray [0 : Z; 100 : Z];
                       gasCostL2 := None;
                       exchange := "Chunked";
                       poolIdentifier := Some "Chunked_pool";
                       poolAddresses := None;
                       data := OtherData EmptyString |} ])));
     IDex.getCalldataGasCost := fun _ => Return (GasArray [0 : Z; 50 : Z]) |}.

Definition registry (key : string) : Try IDex.t :=
  if bool_decide (key = "BabyDogeSwap")
  then Return babydogeDex
  else if bool_decide (key = "Careless") then Return careless
  else if bool_decide (key = "Chunked") then Return chunked
  else Throw (Error ("Invalid Dex Key " +:+ key)).

End Sample.


(** ** More strings *)

(** [s.split(sep)] for a separator of one character: the segments between
    the separators, at least one. *)
Fixpoint splitOn (sep : ascii) (s : string) : list string :=
  match s with
  | EmptyString => [EmptyString]
  | String c rest =>
      if Ascii.eqb c sep then EmptyString :: splitOn sep rest
      else
        match splitOn sep rest with
        | [] => [String c EmptyString]
        | seg :: segs => String c seg :: segs
        end
  end.

(** ** [PricingHelper]: the registry-facing methods *)

Module PricingHelperRegistry.
Section WithService.
Context `{JsNumber}.

(** [this.dexAdapterService.getAllDexKeys()] and
    [this.dexAdapterService.getDexByKey]. *)
Variable serviceAllDexKeys : list string.
Variable serviceGetDexByKey : string → Try IDex.t.

(** [e instanceof Error && e.message.startsWith('Invalid Dex Key')].  The
    thrown values that carry a message are the [Error]s. *)
Definition isInvalidDexKey (e : JsError) : bool :=
  match message e with
  | Some msg => String.prefix "Invalid Dex Key" msg
  | None => false
  end.


(** [getDexByKey(key)]: the adapter, [null] for a key that is not
    registered, and any other error thrown on. *)
Definition getDexByKey (key : string) : Try (option IDex.t) :=
  match serviceGetDexByKey key with
  | Return dexInstance => Return (Some dexInstance)
  | Throw e => if isInvalidDexKey e then Return None else Throw e
  end.




End WithService.
End PricingHelperRegistry.

(** ** [Airswap] (the second source of the coordinator's file) *)

Module Airswap.
Section WithNumbers.
Context `{JsNumber}.

(** [ETHER_ADDRESS] of [./constants] and
    [CALLDATA_GAS_COST.DEX_NO_PAYLOAD] are declared outside the sources;
    [AddressZero] is the constant of [@ethersproject/constants]. *)
Variable ETHER_ADDRESS : string.
Variable DEX_NO_PAYLOAD : number.

Definition AddressZero : string :=
  "0x0000000000000000000000000000000000000000".

(** The adapter: its key, and what the maker look-ups of
    [getPricesVolume] do.  From [levelRequests] on, the method asks the
    makers for their levels and computes prices from them; it uses none of
    the results, so only whether and when that work completes is kept. *)
Record t := mk {
  dexKey : string;
  makerLevels :
    list (option string) → Token → Token → list Z → SwapSide →
    Promise Datatypes.unit;
}.

(** [forgePairTokenKey]. *)
Definition forgePairTokenKey (srcAddress destAddress : string) : string :=
  toLowerCase (srcAddress +:+ "_" +:+ destAddress).

(** [getPoolIdentifier(srcAddress, destAddress, makerName = '')]. *)
Definition getPoolIdentifier (self : t) (srcAddress destAddress : string)
    (makerName : string) : string :=
  toLowerCase
    (dexKey self +:+ "_" +:+ forgePairTokenKey srcAddress destAddress
       +:+ "_" +:+ makerName).

(** [getMakerUrlFromKey(key)]: [key.split(`_`).pop()]. *)
Definition getMakerUrlFromKey (key : string) : option string :=
  last (splitOn "_" key).

(** [normalizeToken]. *)
Definition normalizeToken (token : Token) : Token :=
  {| address :=
       if bool_decide (toLowerCase (address token) = ETHER_ADDRESS)
       then AddressZero
       else toLowerCase (address token);
     decimals := decimals token |}.

(** The table [makerAndPairs] of [getPoolIdentifiers]: each maker with its
    pairs [(baseToken, quoteToken)]. *)
Definition makerAndPairs : list (string * list (string * string)) :=
  [ ("http://airswap-goerli-maker.mitsi.ovh",
     [ ("0x79c950c7446b234a6ad53b908fbf342b01c4d446",
        "0x07865c6E87B9F70255377e024ace6630C1Eaa37F") ]) ].

Definition getPoolIdentifiers (self : t) (srcToken destToken : Token)
    (side : SwapSide) (blockNumber : N) : Promise (list string) :=
  let normalizedSrcToken := normalizeToken srcToken in
  let normalizedDestToken := normalizeToken destToken in
  SettlesAfter 0
    (Return
       (if bool_decide
             (address normalizedSrcToken = address normalizedDestToken)
        then []
        else
          map (fun entry =>
                 getPoolIdentifier self (address normalizedSrcToken)
                   (address normalizedDestToken) entry.1)
            (filter
               (fun entry : string * list (string * string) =>
                  existsb
                    (fun tokens : string * string =>
                       bool_decide
                         (address normalizedSrcToken = toLowerCase tokens.1)
                       && bool_decide
                            (address normalizedDestToken
                             = toLowerCase tokens.2))
                    entry.2)
               makerAndPairs))).

(** [getPricesVolume]: every [return] of it returns [null]. *)
Definition getPricesVolume (self : t) (srcToken destToken : Token)
    (amounts : list Z) (side : SwapSide) (blockNumber : N)
    (limitPools : option (list string))
    : Promise (option (list PoolPrices)) :=
  let normalizedSrcToken := normalizeToken srcToken in
  let normalizedDestToken := normalizeToken destToken in
  if bool_decide (address normalizedSrcToken = address normalizedDestToken)
  then SettlesAfter 0 (Return None)
  else
    let pools :=
      match limitPools with
      | Some pools => SettlesAfter 0 (Return pools)
      | None => getPoolIdentifiers self srcToken destToken side blockNumber
      end in
    match pools with
    | Pending => Pending
    | SettlesAfter ms (Throw e) => SettlesAfter ms (Throw e)
    | SettlesAfter ms (Return pools) =>
        let marketMakersUris := map getMakerUrlFromKey pools in
        match makerLevels self marketMakersUris srcToken destToken amounts
                side with
        | Pending => Pending
        | SettlesAfter ms' outcome =>
            SettlesAfter (ms + ms') (outcome ≫= fun _ => Return None)
        end
    end.

Definition getCalldataGasCost (self : t) (poolPrices : PoolPrices)
    : Try GasCost :=
  Return (GasScalar DEX_NO_PAYLOAD).

Definition asDex (self : t) : IDex.t :=
  {| IDex.hasConstantPriceLargeAmounts := false;
     IDex.isFeeOnTransferSupported := false;
     IDex.getPoolIdentifiers := getPoolIdentifiers self;
     IDex.getPricesVolume := fun s d amounts side b limitPools _ =>
       promise_then (getPricesVolume self s d amounts side b limitPools)
         (fun r => Return (fresh <$> r));
     IDex.getCalldataGasCost := getCalldataGasCost self |}.

End WithNumbers.
End Airswap.

(** ** [BabydogeSwap]: route helpers and the pair cache *)

Module BabydogeRoute.
Section WithConstants.

(** [ETHER_ADDRESS] and [NULL_ADDRESS] of [./constants] are declared
    outside the sources. *)
Variable ETHER_ADDRESS : string.
Variable NULL_ADDRESS : string.

(** The builtin [BigInt(address)] on a string: the integer it spells, or
    the [SyntaxError] thrown. *)
Variable BigInt : string → Try Z.

(** One entry of [encodePools]:
    [(BigInt(10000 - fee) << 161n) + ((direction ? 0n : 1n) << 160n) +
    BigInt(address)].  The source prints the sum with [toString()]; the
    integer printed is kept. *)
Definition encodePool (pool : BabydogeSwapPool) : Try Z :=
  a ← BigInt (pool_address pool);
  Return
    (Z.shiftl (10000 - pool_fee pool) 161
     + Z.shiftl (if pool_direction pool then 0 else 1) 160
     + a).

Definition encodePools (pools : list BabydogeSwapPool) : Try (list Z) :=
  mapM encodePool pools.

(** [fixPath(path, srcToken, destToken)]. *)
Definition fixPath (path : list string) (srcToken destToken : string)
    : list string :=
  imap
    (fun i token =>
       if (bool_decide (i = 0%nat)
           && bool_decide (toLowerCase srcToken = toLowerCase ETHER_ADDRESS))
          || (bool_decide (i = (length path - 1)%nat)
              && bool_decide
                   (toLowerCase destToken = toLowerCase ETHER_ADDRESS))
       then ETHER_ADDRESS
       else token)
    path.

(** [BabydogeSwapPair]; [pool] names the event pool that [addPool] hangs
    on the pair, if any. *)
Record BabydogeSwapPair := mkPair {
  token0 : Token;
  token1 : Token;
  pair_exchange : option string;
  pool : option nat;
}.

(** [findPair(from, to)] on the cache [this.pairs], with
    [getPair token0 token1] for
    [await this.factory.methods.getPair(token0.address,
    token1.address).call()]: the pair found, and the cache afterwards. *)
Definition findPair (getPair : string → string → Try string)
    (pairs : gmap string BabydogeSwapPair) (from to : Token)
    : Try (option BabydogeSwapPair * gmap string BabydogeSwapPair) :=
  if bool_decide (toLowerCase (address from) = toLowerCase (address to))
  then Return (None, pairs)
  else
    let '(token0, token1) :=
      if String.ltb (toLowerCase (address from)) (toLowerCase (address to))
      then (from, to) else (to, from) in
    let key :=
      toLowerCase (address from) +:+ "-" +:+ toLowerCase (address token1) in
    match pairs !! key with
    | Some cached => Return (Some cached, pairs)
    | None =>
        exchange ← getPair (address token0) (address token1);
        let created :=
          if bool_decide (exchange = NULL_ADDRESS)
          then mkPair token0 token1 None None
          else mkPair token0 token1 (Some exchange) None in
        Return (Some created, <[key := created]> pairs)
    end.

End WithConstants.
End BabydogeRoute.

(** ** [VirtuSwap]: pricing from pool identifiers *)

Module VirtuSwap.

(** [PoolState] of [./types] and the virtual pools and functions of
    [./lib/vSwapLibrary] are declared outside the sources, with the types
    of their balances and fees.  The fields that [getPricesVolume] reads
    are kept as functions; the library functions may throw. *)
Class Library := {
  PoolState : Type;
  VirtualPool : Type;
  Balance : Type;
  Fee : Type;
  state_fee : PoolState → Fee;
  state_token0 : PoolState → string;
  state_pairBalance0 : PoolState → Balance;
  state_pairBalance1 : PoolState → Balance;
  vpool_balance0 : VirtualPool → Balance;
  vpool_balance1 : VirtualPool → Balance;
  vpool_fee : VirtualPool → Fee;
  vpool_commonToken : VirtualPool → string;
  getAmountIn : Z → Balance → Balance → Fee → Try Z;
  getAmountOut : Z → Balance → Balance → Fee → Try Z;
  sortBalances :
    string → string → Balance → Balance → Try (Balance * Balance);
  getVirtualPool : PoolState → PoolState → N → Try VirtualPool;
}.

Section WithLibrary.
Context `{JsNumber} `{Library}.

(** [VirtuSwapData], as [getPricesVolume] builds it: [isVirtual: false]
    with a [path], or [isVirtual: true] with [tokenOut], [commonToken] and
    [ikPair]. *)
Inductive VirtuSwapData :=
| RealPoolData (router : string) (path : list string)
| VirtualPoolData (router tokenOut commonToken ikPair : string).

Definition isVirtual (d : VirtuSwapData) : bool :=
  match d with
  | RealPoolData _ _ => false
  | VirtualPoolData _ _ _ _ => true
  end.

(** [PoolPrices<VirtuSwapData>], with the fields that [getPricesVolume]
    sets. *)
Record Quote := mkQuote {
  prices : list Z;
  unit : Z;
  data : VirtuSwapData;
  poolIdentifier : string;
  poolAddresses : list string;
  exchange : string;
  gasCost : number;
}.

(** The adapter: its key, [dexHelper.config.wrapETH], the router and the
    gas costs of [this.config], the event pools of [this.pools] with their
    [getState], and what [getPoolIdentifiers] answers. *)
Record t := mk {
  dexKey : string;
  wrapETH : Token → Token;
  config_router : string;
  realPoolGasCost : number;
  virtualPoolGasCost : number;
  pools : gmap string (Z → option PoolState);
  poolIdentifiers : Token → Token → SwapSide → N → Promise (list string);
}.

(** The properties that [this.pools], an object literal, inherits from
    [Object.prototype]. *)
Definition objectPrototypeKeys : list string :=
  [ "constructor"; "__defineGetter__"; "__defineSetter__"; "hasOwnProperty";
    "__lookupGetter__"; "__lookupSetter__"; "isPrototypeOf";
    "propertyIsEnumerable"; "toString"; "valueOf"; "__proto__";
    "toLocaleString" ].

(** [getPoolState(pool, blockNumber)]:
    [this.pools[pool]?.getState(blockNumber - 1) ?? null].  For an
    inherited property the look-up finds a value that has no [getState],
    and the call throws a [TypeError]. *)
Definition getPoolState (self : t) (pool : string) (blockNumber : N)
    : Try (option PoolState) :=
  match pools self !! pool with
  | Some getState => Return (getState (Z.of_N blockNumber - 1))
  | None =>
      if bool_decide (pool ∈ objectPrototypeKeys)
      then Throw (Error "this.pools[pool]?.getState is not a function")
      else Return None
  end.

(** The callback of [identifiers.map(id => { ... })]: the quote of one
    identifier, or [null]. *)
Definition quoteOf (self : t) (from to : Token) (amounts : list Z)
    (side : SwapSide) (blockNumber : N) (id : string) : Try (option Quote) :=
  let isSell := bool_decide (side = SELL) in
  let unitAmount :=
    getBigIntPow (if isSell then decimals from else decimals to) in
  let getAmount := if isSell then getAmountOut else getAmountIn in
  match splitOn "_" id with
  | [_; poolAddress] =>
      poolState ← getPoolState self poolAddress blockNumber;
      match poolState with
      | None => Return None
      | Some poolState =>
          let fee := state_fee poolState in
          balances ← sortBalances (toLowerCase (address from))
                        (toLowerCase (state_token0 poolState))
                        (state_pairBalance0 poolState)
                        (state_pairBalance1 poolState);
          ps ← mapM (fun amount => getAmount amount balances.1 balances.2 fee)
                 amounts;
          u ← getAmount unitAmount balances.1 balances.2 fee;
          Return
            (Some
               {| prices := ps;
                  unit := u;
                  data :=
                    RealPoolData (config_router self)
                      [address from; address to];
                  poolIdentifier := id;
                  poolAddresses := [poolAddress];
                  exchange := dexKey self;
                  gasCost := realPoolGasCost self |})
      end
  | [_; jkPair; ikPair] =>
      jkState ← getPoolState self jkPair blockNumber;
      match jkState with
      | None => Return None
      | Some jkState =>
          ikState ← getPoolState self ikPair blockNumber;
          match ikState with
          | None => Return None
          | Some ikState =>
              tryCatch
                (vPool ← getVirtualPool jkState ikState blockNumber;
                 let balance0 := vpool_balance0 vPool in
                 let balance1 := vpool_balance1 vPool in
                 let fee := vpool_fee vPool in
                 ps ← mapM (fun amount =>
                              getAmount amount balance0 balance1 fee)
                        amounts;
                 u ← getAmount unitAmount balance0 balance1 fee;
                 Return
                   (Some
                      {| prices := ps;
                         unit := u;
                         data :=
                           VirtualPoolData (config_router self)
                             (address to) (vpool_commonToken vPool) ikPair;
                         poolIdentifier := id;
                         poolAddresses := [jkPair; ikPair];
                         exchange := dexKey self;
                         gasCost := virtualPoolGasCost self |}))
                (fun _ => Return None)
          end
      end
  | _ => Return None
  end.

(** [getPricesVolume]. *)
Definition getPricesVolume (self : t) (srcToken destToken : Token)
    (amounts : list Z) (side : SwapSide) (blockNumber : N)
    (limitPools : option (list string)) : Promise (option (list Quote)) :=
  let from := wrapETH self srcToken in
  let to := wrapETH self destToken in
  if bool_decide (toLowerCase (address from) = toLowerCase (address to))
  then SettlesAfter 0 (Return None)
  else
    let identifiers :=
      match limitPools with
      | Some ids =>
          SettlesAfter 0
            (Return
               (filter (fun id => String.prefix (dexKey self) id = true) ids))
      | None => poolIdentifiers self srcToken destToken side blockNumber
      end in
    promise_then identifiers
      (fun ids =>
         qs ← mapM (quoteOf self from to amounts side blockNumber) ids;
         Return (Some (omap (fun q => q) qs))).

End WithLibrary.
End VirtuSwap.

(** ** Further sample adapters *)

Module Scenario.
#[local] Existing Instance SafeInteger.

(** The pool of [Sample.babydoge]. *)
Definition pool : BabydogeMath.BabydogeSwapPoolOrderedParams :=
  BabydogeMath.mkParams "0xabc0" "0xdef1" 1000000 2000000 30 true "0xpool".

Definition dai : Token := mkToken "0x6B17" 18.
Definition sdai : Token := mkToken "0x83F2" 18.


Definition sdaiAdapter : SDai.t := SDai.new "SDai" "0x83f2" "0x6b17".

(** An [Airswap] whose makers answer after 40 ms. *)
Definition airswap : Airswap.t :=
  Airswap.mk "Airswap" (fun _ _ _ _ _ => SettlesAfter 40 (Return tt)).

Definition ETHER_ADDRESS : string :=
  "0xeeeeeeeeeeeeeeeeeeeeeeeeeeeeeeeeeeeeeeee".

Definition raggedFirst : PoolPrices :=
  {| prices := [0; 9];
     unit := 1;
     gasCost := GasArray [0 : Z; 100 : Z];
     gasCostL2 := None;
     Types.exchange := "Ragged";
     poolIdentifier := Some "Ragged_1";
     poolAddresses := None;
     data := OtherData EmptyString |}.

Definition raggedSecond : PoolPrices :=
  {| prices := [0; 8];
     unit := 1;
     gasCost := GasArray [0 : Z; 100 : Z; 200 : Z];
     gasCostL2 := None;
     Types.exchange := "Ragged";
     poolIdentifier := Some "Ragged_2";
     poolAddresses := None;
     data := OtherData EmptyString |}.

(** An adapter with two quotes; the calldata costs have the length of the
    first quote's gas costs, not of the second's. *)
Definition ragged : IDex.t :=
  {| IDex.hasConstantPriceLargeAmounts := false;
     IDex.isFeeOnTransferSupported := true;
     IDex.getPoolIdentifiers := fun _ _ _ _ => SettlesAfter 5 (Return []);
     IDex.getPricesVolume := fun _ _ _ _ _ _ _ =>
       SettlesAfter 5 (Return (Some (fresh [raggedFirst; raggedSecond])));
     IDex.getCalldataGasCost := fun _ => Return (GasArray [0 : Z; 50 : Z]) |}.

Definition sdaiDex : IDex.t := SDai.asDex (30000 : Z) (60 : Z) sdaiAdapter.

Definition airswapDex : IDex.t :=
  Airswap.asDex ETHER_ADDRESS (60 : Z) airswap.

Definition registry (key : string) : Try IDex.t :=
  if bool_decide (key = "SDai") then Return sdaiDex
  else if bool_decide (key = "Airswap") then Return airswapDex
  else if bool_decide (key = "Ragged") then Return ragged
  else Sample.registry key.




(** A factory that knows one pool for every pair, and one that cannot be
    reached. *)
Definition factory (token0 token1 : string) : Try string := Return "0xpool".

Definition unreachable (token0 token1 : string) : Try string :=
  Throw (Error "connection refused").

(** A pool state with the fields read by [getPricesVolume]; a library that
    quotes with the constant-product kernel and knows no virtual pool. *)
Record VPoolState := mkVPoolState {
  vstate_token0 : string;
  vstate_balance0 : Z;
  vstate_balance1 : Z;
  vstate_fee : Z;
}.

Definition library : VirtuSwap.Library :=
  {| VirtuSwap.PoolState := VPoolState;
     VirtuSwap.VirtualPool := Datatypes.unit;
     VirtuSwap.Balance := Z;
     VirtuSwap.Fee := Z;
     VirtuSwap.state_fee := vstate_fee;
     VirtuSwap.state_token0 := vstate_token0;
     VirtuSwap.state_pairBalance0 := vstate_balance0;
     VirtuSwap.state_pairBalance1 := vstate_balance1;
     VirtuSwap.vpool_balance0 := fun _ => 0;
     VirtuSwap.vpool_balance1 := fun _ => 0;
     VirtuSwap.vpool_fee := fun _ => 0;
     VirtuSwap.vpool_commonToken := fun _ => EmptyString;
     VirtuSwap.getAmountIn := fun y b0 b1 f =>
       Return (BabydogeMath.getAmountIn y b0 b1 f);
     VirtuSwap.getAmountOut := fun x b0 b1 f =>
       Return (BabydogeMath.getAmountOut x b0 b1 f);
     VirtuSwap.sortBalances := fun tokenIn token0 b0 b1 =>
       Return (if bool_decide (tokenIn = token0) then (b0, b1) else (b1, b0));
     VirtuSwap.getVirtualPool := fun _ _ _ =>
       Throw (Error "no virtual pool") |}.

#[local] Existing Instance library.

(** A [VirtuSwap] with one real pool, whose [getPoolIdentifiers] is not
    answered. *)
Definition virtuswap : VirtuSwap.t :=
  VirtuSwap.mk "VirtuSwap" (fun t => t) "0xrouter" (90000 : Z) (150000 : Z)
    (<["0xpool" := fun _ => Some (mkVPoolState "0xabc0" 1000000 2000000 30)]>
       ∅)
    (fun _ _ _ _ => Pending).

(** Its quote for selling the amounts [0] and [1000] of [Sample.tokenA]. *)
Definition virtuswapQuote : VirtuSwap.Quote :=
  {| VirtuSwap.prices := [0; 1992];
     VirtuSwap.unit := 1999999;
     VirtuSwap.data :=
       VirtuSwap.RealPoolData "0xrouter" ["0xAbC0"; "0xdef1"];
     VirtuSwap.poolIdentifier := "VirtuSwap_0xpool";
     VirtuSwap.poolAddresses := ["0xpool"];
     VirtuSwap.exchange := "VirtuSwap";
     VirtuSwap.gasCost := (90000 : Z) |}.

End Scenario.

(** * Properties *)

Section KernelFacts.
Import BabydogeMath.

Lemma quot_is_div (a b : Z) : 0 ≤ a → 0 < b → a ÷ b = a / b.
Proof. intros. apply Z.quot_div_nonneg; lia. Qed.

Lemma getAmountOut_unfold (x r_in r_out f : Z) :
  getAmountOut x r_in r_out f =
    if RESERVE_LIMIT <? r_in + x then 0
    else if r_in * feeFactor + x * (feeFactor - f) =? 0 then 0
         else (x * (feeFactor - f) * r_out)
              ÷ (r_in * feeFactor + x * (feeFactor - f)).
Proof. reflexivity. Qed.

Lemma getAmountIn_unfold (y r_in r_out f : Z) :
  getAmountIn y r_in r_out f =
    if (feeFactor - f) * (r_out - y) <=? 0 then 0
    else if r_in * y * feeFactor =? 0 then 0
         else 1 + (r_in * y * feeFactor) ÷ ((feeFactor - f) * (r_out - y)).
Proof. reflexivity. Qed.


(** C4, as the code has it.  For all integers [y], [r_in], [r_out] and [f],
    with [F = 10000]: the buy quote is [0] when the denominator
    [(F-f)*(r_out - y)] is [<= 0] or the numerator [r_in*y*F] is [0];
    otherwise it is [1] plus the quotient of the numerator by the
    denominator, truncated toward zero as the BigInt division does.  That
    quotient is the floor whenever the numerator is not negative. *)
Theorem buy_quote (y r_in r_out f : Z) :
  let num := r_in * y * feeFactor in
  let den := (feeFactor - f) * (r_out - y) in
  (den ≤ 0 → getAmountIn y r_in r_out f = 0)
  ∧ (num = 0 → getAmountIn y r_in r_out f = 0)
  ∧ (0 < den → num ≠ 0 → getAmountIn y r_in r_out f = 1 + num ÷ den)
  ∧ (0 < den → 0 ≤ num → num ÷ den = num / den).
Proof.
  intros num den. rewrite getAmountIn_unfold. fold num den.
  destruct (Z.leb_spec den 0), (Z.eqb_spec num 0);
    repeat split; intros; try done; try lia.
  all: by apply quot_is_div.
Qed.

Lemma sell_then_buy_le (r0 r1 f x : Z) :
  0 ≤ r0 → 0 ≤ r1 → 0 ≤ f < feeFactor → 0 < x → x + r0 ≤ RESERVE_LIMIT →
  getAmountIn (getAmountOut x r0 r1 f) r0 r1 f ≤ x + 1.
Proof.
  intros H0 H1 Hf Hx Hlim.
  set (a := feeFactor - f). assert (Ha : 0 < a) by (unfold a; lia).
  assert (HF : 0 < feeFactor) by (unfold feeFactor; lia).
  rewrite (getAmountOut_unfold x). fold a.
  destruct (Z.ltb_spec RESERVE_LIMIT (r0 + x)); [lia|].
  set (den := r0 * feeFactor + x * a).
  assert (Hden : 0 < den) by (unfold den; nia).
  destruct (Z.eqb_spec den 0); [lia|].
  set (num := x * a * r1). assert (Hnum : 0 ≤ num) by (unfold num; nia).
  rewrite (quot_is_div num den) by lia.
  set (y := num / den).
  assert (Hy0 : 0 ≤ y) by (apply Z.div_pos; lia).
  assert (Hy : y * den ≤ num) by (rewrite Z.mul_comm; apply Z.mul_div_le; lia).
  rewrite getAmountIn_unfold. fold a.
  destruct (Z.leb_spec (a * (r1 - y)) 0); [lia|].
  destruct (Z.eqb_spec (r0 * y * feeFactor) 0); [lia|].
  rewrite quot_is_div by nia.
  assert (r0 * y * feeFactor / (a * (r1 - y)) ≤ x); [|lia].
  apply Z.div_le_upper_bound; [lia|].
  unfold den, num in Hy. nia.
Qed.

Lemma buy_then_sell_ge (r0 r1 f y : Z) :
  0 < r0 → 0 ≤ f < feeFactor → 0 < y < r1 →
  getAmountIn y r0 r1 f + r0 ≤ RESERVE_LIMIT →
  y ≤ getAmountOut (getAmountIn y r0 r1 f) r0 r1 f.
Proof.
  intros H0 Hf Hy.
  set (a := feeFactor - f). assert (Ha : 0 < a) by (unfold a; lia).
  assert (HF : 0 < feeFactor) by (unfold feeFactor; lia).
  rewrite (getAmountIn_unfold y). fold a.
  set (den := a * (r1 - y)). assert (Hden : 0 < den) by (unfold den; nia).
  set (num := r0 * y * feeFactor).
  assert (Hnum : 0 < num) by (unfold num; nia).
  destruct (Z.leb_spec den 0); [lia|].
  destruct (Z.eqb_spec num 0); [lia|].
  rewrite (quot_is_div num den) by lia.
  set (q := num / den).
  assert (Hq0 : 0 ≤ q) by (apply Z.div_pos; lia).
  assert (Hq : num < den * (1 + q)).
  { unfold q. rewrite Z.add_comm. apply Z.mul_succ_div_gt. lia. }
  intros Hlim.
  rewrite getAmountOut_unfold. fold a.
  destruct (Z.ltb_spec RESERVE_LIMIT (r0 + (1 + q))); [lia|].
  destruct (Z.eqb_spec (r0 * feeFactor + (1 + q) * a) 0); [nia|].
  rewrite quot_is_div by nia.
  apply Z.div_le_lower_bound; [nia|].
  unfold den, num in Hq. nia.
Qed.

(** C5, as the code has it.  For reserves [r0 >= 0], [r1 >= 0], a fee [f]
    in [[0, F)] and [x > 0] with [x + r0 <= 2^112 - 1], quoting the input
    for the sell output never asks for more than [x + 1]:
    [getAmountIn(getAmountOut(x, r0, r1, f), r0, r1, f) <= x + 1]
    (it can be far below [x], and is [0] when the sell output is [0]).
    The bound from below holds for the other composition: if moreover
    [r0 > 0], [x < r1] and [getAmountIn(x, ..) + r0 <= 2^112 - 1], then
    [getAmountOut(getAmountIn(x, r0, r1, f), r0, r1, f) >= x]. *)
Theorem round_trip_bounds (r0 r1 f x : Z) :
  0 ≤ r0 → 0 ≤ r1 → 0 ≤ f < feeFactor → 0 < x → x + r0 ≤ 2 ^ 112 - 1 →
  getAmountIn (getAmountOut x r0 r1 f) r0 r1 f ≤ x + 1
  ∧ (0 < r0 → x < r1 → getAmountIn x r0 r1 f + r0 ≤ 2 ^ 112 - 1 →
     x ≤ getAmountOut (getAmountIn x r0 r1 f) r0 r1 f).
Proof.
  intros H0 H1 Hf Hx Hlim. split.
  - by apply sell_then_buy_le.
  - intros Hr0 Hxr1 Hlim'. by apply buy_then_sell_ge.
Qed.

End KernelFacts.

Section TryFacts.
Context {A B : Type}.

Lemma mapM_returns (f : A → Try B) (d : B) (l : list A) :
  (∀ x, x ∈ l → ∃ y, f x = Return y) →
  mapM f l = Return (map (fun x => returned d (f x)) l).
Proof.
  induction l as [|x l IH]; intros Hf; [reflexivity|].
  cbn. destruct (Hf x) as [y Hy]; [apply list_elem_of_here|]. rewrite Hy. cbn.
  rewrite IH; [done|]. intros z Hz. apply Hf. by apply list_elem_of_further.
Qed.


End TryFacts.

Section ValidationFacts.
Context `{JsNumber}.
Import PricingHelper.

Lemma zeroAmountWithGas_false (gs : list number) (amounts : list Z) (i : nat) :
  zeroAmountWithGas gs i amounts = false ↔
  ∀ j, amounts !! j = Some 0 → notZero (gs !! (i + j)%nat) = false.
Proof.
  revert i. induction amounts as [|a amounts IH]; intros i; cbn.
  - split; [intros _ j Hj; done | done].
  - destruct (Z.eqb_spec a 0) as [->|Ha]; cbn.
    + destruct (notZero (gs !! i)) eqn:Hn.
      * split; [done|]. intros Hall. specialize (Hall 0%nat eq_refl).
        rewrite Nat.add_0_r in Hall. congruence.
      * rewrite IH. split.
        -- intros Hall [|j] Hj; [by rewrite Nat.add_0_r|].
           cbn in Hj. rewrite <- Nat.add_succ_comm. by apply Hall.
        -- intros Hall j Hj. rewrite Nat.add_succ_comm. by apply Hall.
    + rewrite IH. split.
      * intros Hall [|j] Hj; [cbn in Hj; congruence|].
        cbn in Hj. rewrite <- Nat.add_succ_comm. by apply Hall.
      * intros Hall j Hj. rewrite Nat.add_succ_comm. by apply Hall.
Qed.

Lemma notZero_false (x : option number) :
  notZero x = false ↔ ∃ g, x = Some g ∧ num_is_zero g = true.
Proof.
  destruct x as [g|]; cbn.
  - rewrite negb_false_iff. split; [by exists g | by intros (? & [= <-] & ?)].
  - split; [done | by intros (? & ? & _)].
Qed.

Lemma forallb_zero (l : list Z) :
  forallb (fun pi => pi =? 0) l = true ↔ Forall (fun pi => pi = 0) l.
Proof.
  induction l as [|x l IH]; cbn; [by split|].
  rewrite andb_true_iff, Forall_cons, IH, Z.eqb_eq. done.
Qed.

Lemma keep_quote (amounts : list Z) (p : Envelope.ImprovedPoolPrice PoolPrices)
    (pp : PoolPrices) :
  Envelope.prices p = Some pp →
  keep amounts p = true ↔ wellFormedQuote amounts pp.
Proof.
  intros Hp. unfold keep, wellFormedQuote. rewrite Hp.
  destruct (Nat.eqb_spec (length (prices pp)) (length amounts)) as [Hlen|Hlen];
    cbn; [|split; [done | by intros [? _]]].
  pose proof (forallb_zero (prices pp)) as Hall.
  destruct (gasCost pp) as [g|gs] eqn:Hg.
  - destruct (forallb _ _).
    + split; [done|]. intros (_ & _ & Hn). destruct Hn. by apply Hall.
    + split; [|done]. intros _. split; [done|]. split; [done|].
      intros HF. by apply Hall in HF.
  - destruct (Nat.eqb_spec (length gs) (length amounts)) as [Hgl|Hgl]; cbn.
    + destruct (zeroAmountWithGas gs 0 amounts) eqn:Hz.
      * split; [done|]. intros (_ & Hgas & _).
        destruct (Hgas gs eq_refl) as [_ Hzero].
        assert (zeroAmountWithGas gs 0 amounts = false); [|congruence].
        apply zeroAmountWithGas_false. intros j Hj. cbn.
        apply notZero_false. by apply Hzero.
      * rewrite zeroAmountWithGas_false in Hz.
        destruct (forallb _ _).
        -- split; [done|]. intros (_ & _ & Hn). destruct Hn. by apply Hall.
        -- split; [|done]. intros _. split; [done|]. split.
           ++ intros gs' [= <-]. split; [done|]. intros i Hi.
              apply notZero_false. by apply (Hz i).
           ++ intros HF. by apply Hall in HF.
    + split; [done|]. intros (_ & Hgas & _).
      by destruct (Hgas gs eq_refl) as [? _].
Qed.

Lemma keep_null (amounts : list Z) (p : Envelope.ImprovedPoolPrice PoolPrices) :
  Envelope.prices p = None → keep amounts p = true.
Proof. intros Hp. unfold keep. by rewrite Hp. Qed.
End ValidationFacts.

Section CoordinatorFacts.
Context `{JsNumber}.
Variable getDexByKey : string → Try IDex.t.
Variables FETCH_POOL_IDENTIFIER_TIMEOUT FETCH_POOL_PRICES_TIMEOUT : N.
Import PricingHelper.

#[local] Abbreviation poolPricesOf' := (poolPricesOf getDexByKey FETCH_POOL_PRICES_TIMEOUT).
#[local] Abbreviation getPoolPrices' := (getPoolPrices getDexByKey FETCH_POOL_PRICES_TIMEOUT).
#[local] Abbreviation pricesTask' := (pricesTask getDexByKey).
#[local] Abbreviation Quote := (Envelope.ImprovedPoolPrice PoolPrices).
#[local] Abbreviation poolIdentifiersOf' :=
  (poolIdentifiersOf getDexByKey FETCH_POOL_IDENTIFIER_TIMEOUT).
#[local] Abbreviation getPoolIdentifiers' :=
  (getPoolIdentifiers getDexByKey FETCH_POOL_IDENTIFIER_TIMEOUT).

Lemma tryCatch_returns {A} (body : Try A) (handler : JsError → Try A) :
  (∀ e, ∃ a, handler e = Return a) → ∃ a, tryCatch body handler = Return a.
Proof. intros Hh. destruct body as [a|e]; cbn; eauto. Qed.

Lemma poolPricesOf_returns from to amounts side blockNumber limitPoolsMap
    transferFees ratio key :
  ∃ l, poolPricesOf' from to amounts side blockNumber limitPoolsMap
         transferFees ratio key = Return l.
Proof. apply tryCatch_returns. eauto. Qed.

Lemma getPoolPrices_unfold from to amounts side blockNumber dexKeys
    limitPoolsMap transferFees ratio :
  getPoolPrices' from to amounts side blockNumber dexKeys limitPoolsMap
    transferFees ratio =
  Return
    (validationPass amounts
       (mjoin
          (map (fun key =>
                  returned []
                    (poolPricesOf' from to amounts side blockNumber
                       limitPoolsMap transferFees ratio key))
             dexKeys))).
Proof.
  unfold getPoolPrices. rewrite (mapM_returns _ []); [done|].
  intros key _. apply poolPricesOf_returns.
Qed.

Lemma toImproved_dexKey key pps p :
  p ∈ toImprovedPoolPrices key pps → Envelope.dexKey p = key.
Proof.
  unfold toImprovedPoolPrices.
  destruct pps as [ep|]; [destruct (slots ep) as [|r rs]|].
  - by intros ->%list_elem_of_singleton.
  - intros (r' & -> & _)%list_elem_of_fmap. done.
  - by intros ->%list_elem_of_singleton.
Qed.

Lemma onPoolPrices_dexKey ratio dexInstance key pps l p :
  onPoolPrices ratio dexInstance key pps = Return l →
  p ∈ l → Envelope.dexKey p = key.
Proof.
  assert (Hs : ∀ objs, p ∈ snapshot objs <$> toImprovedPoolPrices key pps →
                       Envelope.dexKey p = key).
  { intros objs (q & -> & Hq)%list_elem_of_fmap. cbn.
    by apply toImproved_dexKey in Hq. }
  unfold onPoolPrices. destruct ratio as [r|].
  - destruct (num_truthy r); cbn.
    + destruct (overlay _ _ _ _ _); cbn; [|done]. intros [= <-]. apply Hs.
    + intros [= <-]. apply Hs.
  - intros [= <-]. apply Hs.
Qed.

Lemma poolPricesOf_dexKey from to amounts side blockNumber limitPoolsMap
    transferFees ratio key l p :
  poolPricesOf' from to amounts side blockNumber limitPoolsMap transferFees
    ratio key = Return l →
  p ∈ l → Envelope.dexKey p = key.
Proof.
  unfold poolPricesOf, tryCatch.
  assert (Hcatch : ∀ e, Return [errorEnvelope key e] = Return l →
                        p ∈ l → Envelope.dexKey p = key).
  { intros e [= <-]. by intros ->%list_elem_of_singleton. }
  assert (Hwork : ∀ limitPools,
    match awaitWithTimeout FETCH_POOL_PRICES_TIMEOUT
            (pricesTask' from to amounts side blockNumber limitPools
               transferFees ratio key) with
    | Return a => Return a
    | Throw e => Return [errorEnvelope key e]
    end = Return l → p ∈ l → Envelope.dexKey p = key).
  { intros limitPools. unfold pricesTask.
    destruct (getDexByKey key) as [dexInstance|e]; [|apply Hcatch].
    destruct (_ && _).
    - cbn. intros [= <-]. by intros ->%list_elem_of_singleton.
    - destruct (IDex.getPricesVolume _ _ _ _ _ _ _ _) as [ms [pps|e]|]; cbn;
        [|destruct (_ || _); apply Hcatch|apply Hcatch].
      destruct (_ || _); [|apply Hcatch].
      destruct (onPoolPrices _ _ _ _) as [l'|e] eqn:Hon; [|apply Hcatch].
      intros [= <-]. by eapply onPoolPrices_dexKey. }
  destruct (limitPoolsOf limitPoolsMap key) as [[|x xs]|]; cbn; [|apply Hwork..].
  intros [= <-]. by intros ?%elem_of_nil.
Qed.

(** C1.  In [getPoolPrices] the answer is the validation pass over the
    adapters' envelopes, flattened in the order of the keys.  The pass keeps
    an envelope with non-null [prices] exactly when the quote has as many
    prices as there are amounts, its gas costs, when they are a sequence,
    have that length too and are [0] wherever the amount is [0n], and not
    every price is [0n].  The envelopes with null [prices] all pass, and no
    envelope is changed or moved. *)
Theorem validation_pass_keeps_well_formed_quotes
    (from to : Token) (amounts : list Z) (side : SwapSide) (blockNumber : N)
    (dexKeys : list string)
    (limitPoolsMap : option (gmap string (option (list string))))
    (transferFees : TransferFeeParams) (ratio : option number) :
  ∃ dexPoolPrices : list (list Quote),
    Forall2
      (fun key l =>
         poolPricesOf' from to amounts side blockNumber limitPoolsMap
           transferFees ratio key = Return l)
      dexKeys dexPoolPrices
    ∧ getPoolPrices' from to amounts side blockNumber dexKeys limitPoolsMap
        transferFees ratio
      = Return (validationPass amounts (mjoin dexPoolPrices))
    ∧ ∀ l : list Quote,
        (∀ p pp, Envelope.prices p = Some pp →
           (p ∈ validationPass amounts l ↔ p ∈ l ∧ wellFormedQuote amounts pp))
        ∧ filter (fun p => Envelope.prices p = None) (validationPass amounts l)
          = filter (fun p => Envelope.prices p = None) l
        ∧ validationPass amounts l `sublist_of` l.
Proof.
  eexists. split; [|split; [apply getPoolPrices_unfold|]].
  - apply Forall2_fmap_r, Forall_Forall2_diag, Forall_forall. intros key _.
    destruct (poolPricesOf_returns from to amounts side blockNumber
                limitPoolsMap transferFees ratio key) as [l Hl]. cbn. by rewrite Hl.
  - intros l. split; [|split].
    + intros p pp Hp. unfold validationPass.
      rewrite list_elem_of_filter, <- (keep_quote amounts p pp Hp).
      rewrite Is_true_true. tauto.
    + unfold validationPass. rewrite list_filter_filter.
      apply list_filter_iff. intros p. split; [tauto|].
      intros Hp. split; [done|]. by rewrite Is_true_true, keep_null.
    + apply sublist_filter.
Qed.





(** *** The overlay on distinct objects *)

Lemma overlayOne_at ratio dexInstance key pid objs r o :
  objs !! r = Some o →
  overlayOne ratio dexInstance key objs (Envelope.mk key pid (Some r))
  = o' ← adjustGas ratio dexInstance key o; Return (<[r := o']> objs).
Proof. intros Ho. unfold overlayOne. cbn. by rewrite Ho. Qed.

Lemma omap_lookup_insert_fresh (objs : list PoolPrices) (r : nat) (o : PoolPrices)
    (rs : list nat) :
  r ∉ rs →
  omap (fun r0 => <[r:=o]> objs !! r0) rs = omap (fun r0 => objs !! r0) rs.
Proof.
  induction rs as [|r0 rs IH]; [done|].
  intros [Hne Hr]%not_elem_of_cons. cbn.
  rewrite list_lookup_insert_ne by done. by rewrite IH.
Qed.

Lemma overlay_distinct ratio dexInstance key (pid : nat → string)
    (rs : list nat) (objs : list PoolPrices) :
  NoDup rs →
  Forall (fun r => (r < length objs)%nat) rs →
  match overlay ratio dexInstance key
          (map (fun r => Envelope.mk key (pid r) (Some r)) rs) objs with
  | Return objs' =>
      ∃ qs',
        mapM (adjustGas ratio dexInstance key) (omap (fun r => objs !! r) rs)
        = Return qs'
        ∧ length objs' = length objs
        ∧ (∀ r, r ∉ rs → objs' !! r = objs !! r)
        ∧ Forall2 (fun r q' => objs' !! r = Some q') rs qs'
  | Throw e =>
      mapM (adjustGas ratio dexInstance key) (omap (fun r => objs !! r) rs)
      = Throw e
  end.
Proof.
  revert objs. induction rs as [|r rs IH]; intros objs Hnd Hin.
  - cbn. exists []. split; [done|]. split; [done|]. split; [done|]. constructor.
  - apply NoDup_cons in Hnd as [Hr Hnd]. apply Forall_cons in Hin as [Hlt Hin].
    destruct (lookup_lt_is_Some_2 objs r Hlt) as [o Ho].
    cbn [map overlay]. rewrite (overlayOne_at _ _ _ _ _ _ _ Ho).
    cbn [omap list_omap]. rewrite Ho. cbn [mapM].
    destruct (adjustGas ratio dexInstance key o) as [o'|e]; cbn; [|done].
    specialize (IH (<[r:=o']> objs) Hnd).
    rewrite omap_lookup_insert_fresh in IH by done.
    rewrite length_insert in IH. specialize (IH Hin).
    destruct (overlay _ _ _ _ _) as [objs'|e].
    + destruct IH as (qs' & -> & Hlen & Hout & Hall). cbn.
      exists (o' :: qs'). split; [done|]. split; [done|]. split.
      * intros r0 [Hne Hr0]%not_elem_of_cons.
        rewrite Hout by done. by apply list_lookup_insert_ne.
      * constructor; [|done]. rewrite Hout by done.
        by apply list_lookup_insert_eq.
    + by rewrite IH.
Qed.

Lemma mapM_Return_Forall2 {A B} (f : A → Try B) (l : list A) (ys : list B) :
  mapM f l = Return ys → Forall2 (fun x y => f x = Return y) l ys.
Proof.
  revert ys. induction l as [|x l IH]; intros ys; cbn.
  - intros [= <-]. constructor.
  - destruct (f x) as [y|e] eqn:Hx; cbn; [|done].
    destruct (mapM f l) as [ys'|e]; cbn; [|done].
    intros [= <-]. constructor; [done|]. by apply IH.
Qed.


Lemma mapM_elem_Throw {A B} (f : A → Try B) (l : list A) (x : A) (e : JsError) :
  x ∈ l → f x = Throw e → ∃ e', mapM f l = Throw e'.
Proof.
  induction 1 as [x l | x y l Hin IH]; intros Hx; cbn.
  - rewrite Hx. by exists e.
  - destruct (f y) as [b|e']; cbn; [|by exists e'].
    destruct (IH Hx) as [e' ->]. by exists e'.
Qed.

Lemma adjustGas_overlaid ratio dexInstance key q q' :
  adjustGas ratio dexInstance key q = Return q' →
  ∃ gasCostL1,
    IDex.getCalldataGasCost dexInstance (set_gasCostL2 (gasCost q) q)
    = Return gasCostL1
    ∧ overlaid ratio q gasCostL1 q'.
Proof.
  unfold adjustGas.
  change (gasCost (set_gasCostL2 (gasCost q) q)) with (gasCost q).
  destruct (IDex.getCalldataGasCost _ _) as [l1|e]; cbn [mbind Try_bind]; [|done].
  intros Hq'. exists l1. split; [done|]. unfold overlaid.
  destruct (gasCost q) as [g|gs] eqn:Hg, l1 as [l|ls]; try done.
  - injection Hq' as <-. cbn. done.
  - destruct (Nat.eqb_spec (length gs) (length ls)) as [Hlen|]; [|done].
    injection Hq' as <-. cbn. repeat split; try done.
    eexists. split; [done|]. split.
    + by rewrite length_zip_with_l_eq.
    + intros i g l1 Hgi Hli. rewrite lookup_zip_with, Hgi. cbn. by rewrite Hli.
Qed.


Lemma onPoolPrices_distinct ratio dexInstance key ep :
  num_truthy ratio = true →
  distinctObjects ep →
  match mapM (adjustGas ratio dexInstance key) (quotes ep) with
  | Return qs' =>
      ∃ envs,
        onPoolPrices (Some ratio) dexInstance key (Some ep) = Return envs
        ∧ omap Envelope.prices envs = qs'
  | Throw e =>
      onPoolPrices (Some ratio) dexInstance key (Some ep) = Throw e
  end.
Proof.
  intros Hr [Hnd Hin]. unfold onPoolPrices, toImprovedPoolPrices, quotes.
  rewrite Hr. cbn [negb from_option].
  destruct ep as [objs rs]. cbn [slots objects] in *.
  destruct rs as [|r rs].
  { cbn. by eexists. }
  pose proof (overlay_distinct ratio dexInstance key
                (fun r => default EmptyString (objs !! r ≫= poolIdentifier))
                (r :: rs) objs Hnd Hin) as Hov.
  destruct (overlay _ _ _ _ _) as [objs'|e].
  - destruct Hov as (qs' & -> & _ & _ & Hall). cbn [mbind Try_bind].
    eexists. split; [done|].
    clear -Hall. revert qs' Hall.
    generalize (r :: rs). intros l. induction l as [|x l IH]; intros qs' Hall.
    + by inversion Hall.
    + inversion Hall as [|? q' ? qs'' Hx Hrest]; subst. cbn.
      rewrite Hx. cbn. f_equal. by apply IH.
  - by rewrite Hov.
Qed.

Lemma poolPricesOf_answered
    (from to : Token) (amounts : list Z) (side : SwapSide) (blockNumber : N)
    (limitPoolsMap : option (gmap string (option (list string))))
    (transferFees : TransferFeeParams) (ratio : option number)
    (key : string) (dexInstance : IDex.t) (ms : N)
    (pps : option ExchangePrices) :
  limitPoolsOf limitPoolsMap key ≠ Some [] →
  getDexByKey key = Return dexInstance →
  isSrcTokenTransferFeeToBeExchanged transferFees
  && negb (IDex.isFeeOnTransferSupported dexInstance) = false →
  IDex.getPricesVolume dexInstance from to amounts side blockNumber
    (limitPoolsOf limitPoolsMap key) transferFees
  = SettlesAfter ms (Return pps) →
  (ms = 0 ∨ ms < FETCH_POOL_PRICES_TIMEOUT)%N →
  poolPricesOf' from to amounts side blockNumber limitPoolsMap transferFees
    ratio key
  = tryCatch (onPoolPrices ratio dexInstance key pps)
      (fun e => Return [errorEnvelope key e]).
Proof.
  intros Hlimit Hdex Hskip Hanswer Hms. unfold poolPricesOf.
  assert (Hawait :
    awaitWithTimeout FETCH_POOL_PRICES_TIMEOUT
      (pricesTask' from to amounts side blockNumber
         (limitPoolsOf limitPoolsMap key) transferFees ratio key)
    = onPoolPrices ratio dexInstance key pps).
  { unfold pricesTask. rewrite Hdex, Hskip, Hanswer. cbn.
    destruct Hms as [-> | Hlt]; [done|].
    apply N.ltb_lt in Hlt. by rewrite Hlt, orb_true_r. }
  destruct (limitPoolsOf limitPoolsMap key) as [[|x xs]|]; [done|..];
    cbn zeta; by rewrite Hawait.
Qed.


(** *** Where the quotes of an answer come from *)

Lemma fresh_distinct (qs : list PoolPrices) : distinctObjects (fresh qs).
Proof.
  split; cbn.
  - apply NoDup_seq.
  - apply Forall_forall. intros r Hr. apply elem_of_seq in Hr. lia.
Qed.

Lemma quotes_fresh (qs : list PoolPrices) : quotes (fresh qs) = qs.
Proof.
  unfold quotes, fresh. cbn.
  assert (Hgen : ∀ pre, omap (fun r => (pre ++ qs) !! r) (seq (length pre) (length qs)) = qs).
  { induction qs as [|q qs IH]; intros pre; [done|]. cbn.
    rewrite list_lookup_middle by done. cbn. f_equal.
    specialize (IH (pre ++ [q])). rewrite <- app_assoc in IH. cbn in IH.
    rewrite length_app in IH. cbn in IH. by rewrite Nat.add_1_r in IH. }
  apply (Hgen []).
Qed.

Lemma snapshot_quotes key ep :
  omap Envelope.prices (snapshot (objects ep) <$> toImprovedPoolPrices key (Some ep))
  = quotes ep.
Proof.
  unfold toImprovedPoolPrices, quotes. destruct ep as [objs rs]. cbn.
  destruct rs as [|r rs]; [done|].
  generalize (r :: rs). intros l. induction l as [|x l IH]; [done|].
  cbn. destruct (objs !! x); cbn; by rewrite IH.
Qed.

Lemma onPoolPrices_prices ratio dexInstance key ep envs p pp :
  distinctObjects ep →
  onPoolPrices ratio dexInstance key (Some ep) = Return envs →
  p ∈ envs → Envelope.prices p = Some pp →
  ∃ q, q ∈ quotes ep ∧ prices pp = prices q.
Proof.
  intros Hdistinct Hon Hp Hpp.
  assert (Hplain : envs = snapshot (objects ep) <$> toImprovedPoolPrices key (Some ep) →
                   ∃ q, q ∈ quotes ep ∧ prices pp = prices q).
  { intros ->. exists pp. split; [|done].
    rewrite <- (snapshot_quotes key). apply list_elem_of_omap. by exists p. }
  destruct ratio as [r|]; [|injection Hon as <-; by apply Hplain].
  destruct (num_truthy r) eqn:Hr.
  - pose proof (onPoolPrices_distinct r dexInstance key ep Hr Hdistinct) as Hd.
    destruct (mapM _ (quotes ep)) as [qs'|e] eqn:HmapM; [|congruence].
    destruct Hd as (envs' & Hon' & Hqs). rewrite Hon in Hon'.
    injection Hon' as <-.
    assert (Hin : pp ∈ qs').
    { rewrite <- Hqs. apply list_elem_of_omap. by exists p. }
    apply list_elem_of_lookup in Hin as [i Hi].
    apply mapM_Return_Forall2 in HmapM.
    destruct (Forall2_lookup_r _ _ _ _ _ HmapM Hi) as (q & Hqi & Hadj).
    exists q. split; [by eapply list_elem_of_lookup_2|].
    apply adjustGas_overlaid in Hadj as (l1 & _ & Hov).
    by destruct Hov as (_ & _ & -> & _).
  - unfold onPoolPrices in Hon. rewrite Hr in Hon. cbn in Hon.
    injection Hon as <-. by apply Hplain.
Qed.

Lemma contribution_quote_origin
    (from to : Token) (amounts : list Z) (side : SwapSide) (blockNumber : N)
    (limitPoolsMap : option (gmap string (option (list string))))
    (transferFees : TransferFeeParams) (ratio : option number)
    (key : string) (dexInstance : IDex.t) (l : list Quote) (p : Quote)
    (pp : PoolPrices) :
  getDexByKey key = Return dexInstance →
  poolPricesOf' from to amounts side blockNumber limitPoolsMap transferFees
    ratio key = Return l →
  p ∈ l → Envelope.prices p = Some pp →
  ∃ ms ep,
    IDex.getPricesVolume dexInstance from to amounts side blockNumber
      (limitPoolsOf limitPoolsMap key) transferFees
    = SettlesAfter ms (Return (Some ep))
    ∧ (distinctObjects ep → ∃ q, q ∈ quotes ep ∧ prices pp = prices q).
Proof.
  intros Hdex Hl Hp Hpp. unfold poolPricesOf, tryCatch in Hl.
  assert (Herr : ∀ e, Return [errorEnvelope key e] = Return l → False).
  { intros e [= <-]. apply list_elem_of_singleton in Hp. by subst p. }
  assert (Hwork :
    match awaitWithTimeout FETCH_POOL_PRICES_TIMEOUT
            (pricesTask' from to amounts side blockNumber
               (limitPoolsOf limitPoolsMap key) transferFees ratio key) with
    | Return a => Return a
    | Throw e => Return [errorEnvelope key e]
    end = Return l).
  { destruct (limitPoolsOf limitPoolsMap key) as [[|x xs]|]; [|done..].
    injection Hl as <-. by apply elem_of_nil in Hp. }
  clear Hl. unfold pricesTask in Hwork. rewrite Hdex in Hwork.
  destruct (_ && _).
  { cbn in Hwork. injection Hwork as <-.
    apply list_elem_of_singleton in Hp. by subst p. }
  destruct (IDex.getPricesVolume _ _ _ _ _ _ _ _) as [ms [pps|e]|];
    cbn in Hwork; [|destruct (_ || _); by destruct (Herr _ Hwork)
                   |by destruct (Herr _ Hwork)].
  destruct (_ || _); [|by destruct (Herr _ Hwork)].
  destruct (onPoolPrices _ _ _ _) as [envs|e] eqn:Hon;
    [|by destruct (Herr _ Hwork)].
  injection Hwork as <-.
  destruct pps as [ep|].
  - exists ms, ep. split; [done|]. intros Hdistinct.
    by eapply onPoolPrices_prices.
  - assert (envs = [Envelope.mk key EmptyString None]) as ->.
    { revert Hon. unfold onPoolPrices.
      destruct ratio as [r|]; [destruct (num_truthy r)|]; cbn;
        by intros [= <-]. }
    apply list_elem_of_singleton in Hp. by subst p.
Qed.

Lemma answer_origin
    (from to : Token) (amounts : list Z) (side : SwapSide) (blockNumber : N)
    (dexKeys : list string)
    (limitPoolsMap : option (gmap string (option (list string))))
    (transferFees : TransferFeeParams) (ratio : option number)
    (out : list Quote) (p : Quote) :
  getPoolPrices' from to amounts side blockNumber dexKeys limitPoolsMap
    transferFees ratio = Return out →
  p ∈ out →
  keep amounts p = true
  ∧ ∃ l,
      poolPricesOf' from to amounts side blockNumber limitPoolsMap transferFees
        ratio (Envelope.dexKey p) = Return l
      ∧ p ∈ l.
Proof.
  rewrite getPoolPrices_unfold. intros [= <-]. unfold validationPass.
  rewrite list_elem_of_filter, Is_true_true, list_elem_of_join.
  intros [Hkeep (l & Hp & (key & -> & Hkey)%list_elem_of_fmap)].
  split; [done|].
  destruct (poolPricesOf_returns from to amounts side blockNumber
              limitPoolsMap transferFees ratio key) as [l Hl].
  rewrite Hl in Hp. cbn in Hp.
  rewrite (poolPricesOf_dexKey _ _ _ _ _ _ _ _ _ _ _ Hl Hp). by exists l.
Qed.

(** *** The two adapters below the coordinator *)

Lemma getSellPricePath_zero (pairParam : BabydogeMath.BabydogeSwapPoolOrderedParams) :
  BabydogeMath.getSellPricePath 0 [pairParam] = 0.
Proof.
  cbn. unfold BabydogeMath.getSellPrice.
  destruct (_ <? _); [done|]. cbn zeta.
  rewrite !Z.mul_0_l, Z.add_0_r.
  destruct (Z.eqb_spec (BabydogeMath.reservesIn pairParam * BabydogeMath.feeFactor) 0);
    [done|]. by apply Z.quot_0_l.
Qed.

Lemma getBuyPricePath_zero (pairParam : BabydogeMath.BabydogeSwapPoolOrderedParams) :
  BabydogeMath.getBuyPricePath 0 [pairParam] = 0.
Proof.
  cbn. unfold BabydogeMath.getBuyPrice. cbn zeta.
  rewrite Z.mul_0_r, Z.mul_0_l. by destruct (_ <=? 0).
Qed.

Lemma babydoge_quote_zero self from to amounts side pairParam (i : nat) :
  amounts !! i = Some 0 →
  prices (BabydogeSwap.quote self from to amounts side pairParam) !! i = Some 0.
Proof.
  intros Hi. unfold BabydogeSwap.quote. cbn [prices].
  destruct (decide (side = BUY)).
  - change (map ?f amounts) with (f <$> amounts).
    rewrite list_lookup_fmap, Hi. cbn [fmap option_fmap option_map].
    f_equal. apply getBuyPricePath_zero.
  - change (map ?f amounts) with (f <$> amounts).
    rewrite list_lookup_fmap, Hi. cbn [fmap option_fmap option_map].
    f_equal. apply getSellPricePath_zero.
Qed.

Lemma babydoge_answer overhead self from to amounts side blockNumber limitPools
    transferFees ms ep :
  IDex.getPricesVolume (BabydogeSwap.asDex overhead self) from to amounts side
    blockNumber limitPools transferFees
  = SettlesAfter ms (Return (Some ep)) →
  ∃ pairParam,
    ep = fresh [BabydogeSwap.quote self (BabydogeSwap.wrapETH self from)
                  (BabydogeSwap.wrapETH self to) amounts side pairParam].
Proof.
  cbn. unfold BabydogeSwap.getPricesVolume.
  destruct (bool_decide _); [done|].
  destruct (match limitPools with Some _ => _ | None => _ end); [done|].
  destruct (BabydogeSwap.pairOrderedParams _ _ _ _) as [ms' [[pairParam|]|e]|];
    cbn; try done.
  intros [= _ <-]. by exists pairParam.
Qed.


Lemma sdai_answer gas payload self from to amounts side blockNumber limitPools
    transferFees ms ep :
  IDex.getPricesVolume (SDai.asDex gas payload self) from to amounts side
    blockNumber limitPools transferFees
  = SettlesAfter ms (Return (Some ep)) →
  ep = fresh [SDai.quote gas self amounts].
Proof.
  cbn. unfold SDai.getPricesVolume. destruct (negb _); cbn; [done|].
  by intros [= _ <-].
Qed.

(** C7, as the code has it.  For an index [i] with [amounts[i] == 0n],
    every quote that [getPoolPrices] returns has, when its [gasCost] is a
    sequence, [gasCost[i] == 0]: the validation pass sees to that.  The pass
    does not look at [prices[i]]; that [prices[i] == 0n] is a property of
    the quotes of [BabydogeSwap], whose sell and buy kernels map [0n] to
    [0n], and of [SDai], whose prices are the amounts. *)
Theorem zero_amount_coherence
    (from to : Token) (amounts : list Z) (side : SwapSide) (blockNumber : N)
    (dexKeys : list string)
    (limitPoolsMap : option (gmap string (option (list string))))
    (transferFees : TransferFeeParams) (ratio : option number)
    (i : nat) (out : list Quote) :
  amounts !! i = Some 0 →
  getPoolPrices' from to amounts side blockNumber dexKeys limitPoolsMap
    transferFees ratio = Return out →
  ∀ p pp,
    p ∈ out → Envelope.prices p = Some pp →
    (∀ gs, gasCost pp = GasArray gs →
           ∃ g, gs !! i = Some g ∧ num_is_zero g = true)
    ∧ (∀ overhead self,
         getDexByKey (Envelope.dexKey p)
         = Return (BabydogeSwap.asDex overhead self) →
         prices pp !! i = Some 0)
    ∧ (∀ gas payload self,
         getDexByKey (Envelope.dexKey p) = Return (SDai.asDex gas payload self) →
         prices pp !! i = Some 0).
Proof.
  intros Hi Hout p pp Hp Hpp.
  destruct (answer_origin _ _ _ _ _ _ _ _ _ _ _ Hout Hp) as (Hkeep & l & Hl & Hpl).
  split; [|split].
  - intros gs Hgs.
    apply (keep_quote amounts p pp Hpp) in Hkeep as (_ & Hgas & _).
    destruct (Hgas gs Hgs) as [_ Hzero]. by apply Hzero.
  - intros overhead self Hdex.
    destruct (contribution_quote_origin _ _ _ _ _ _ _ _ _ _ _ _ _ Hdex Hl Hpl Hpp)
      as (ms & ep & Hanswer & Horigin).
    apply babydoge_answer in Hanswer as (pairParam & ->).
    destruct Horigin as (q & Hq & ->); [apply fresh_distinct|].
    rewrite quotes_fresh in Hq. apply list_elem_of_singleton in Hq as ->.
    by apply babydoge_quote_zero.
  - intros gas payload self Hdex.
    destruct (contribution_quote_origin _ _ _ _ _ _ _ _ _ _ _ _ _ Hdex Hl Hpl Hpp)
      as (ms & ep & Hanswer & Horigin).
    apply sdai_answer in Hanswer as ->.
    destruct Horigin as (q & Hq & ->); [apply fresh_distinct|].
    rewrite quotes_fresh in Hq. by apply list_elem_of_singleton in Hq as ->.
Qed.

(** *** [getPoolIdentifiers] *)






(** *** The identical pair, and [SDai] *)




(** C10.  [SDai.getPricesVolume] returns [null] unless the pair is DAI
    against sDAI (one address equal to [daiAddress] and the other to
    [sdaiAddress] once both are lower-cased, in either order).  For such a
    pair, for either side and any amounts, it returns one quote whose
    [prices] are the amounts, whose [unit] is 10^18, whose [gasCost] is a
    scalar and which has no [poolIdentifier]; the coordinator's envelope
    for it has the empty string as [poolId], with or without the rollup
    overlay. *)
Theorem sdai_quotes_the_amounts
    (SDAI_GAS_COST DEX_NO_PAYLOAD : number)
    (key dexKey sdaiAddress daiAddress : string)
    (srcToken destToken : Token) (amounts : list Z) (side : SwapSide)
    (blockNumber : N) (limitPools : option (list string))
    (ratio : option number) :
  let self := SDai.new dexKey sdaiAddress daiAddress in
  let daiWithSDai :=
    (toLowerCase daiAddress = toLowerCase (address srcToken)
     ∧ toLowerCase sdaiAddress = toLowerCase (address destToken))
    ∨ (toLowerCase daiAddress = toLowerCase (address destToken)
       ∧ toLowerCase sdaiAddress = toLowerCase (address srcToken)) in
  (¬ daiWithSDai →
     SDai.getPricesVolume SDAI_GAS_COST self srcToken destToken amounts side
       blockNumber limitPools
     = SettlesAfter 0 (Return None))
  ∧ (daiWithSDai →
       ∃ q,
         SDai.getPricesVolume SDAI_GAS_COST self srcToken destToken amounts
           side blockNumber limitPools
         = SettlesAfter 0 (Return (Some [q]))
         ∧ prices q = amounts
         ∧ unit q = 10 ^ 18
         ∧ (∃ g, gasCost q = GasScalar g)
         ∧ poolIdentifier q = None
         ∧ ∃ q',
             onPoolPrices ratio (SDai.asDex SDAI_GAS_COST DEX_NO_PAYLOAD self)
               key (Some (fresh [q]))
             = Return [Envelope.mk key EmptyString (Some q')]
             ∧ prices q' = amounts ∧ poolIdentifier q' = None).
Proof.
  intros self daiWithSDai.
  assert (Hpair : SDai.isAppropriatePair self srcToken destToken = true
                  ↔ daiWithSDai).
  { unfold SDai.isAppropriatePair, SDai.isDai, SDai.isSDai, daiWithSDai. cbn.
    rewrite orb_true_iff, !andb_true_iff, !bool_decide_eq_true. done. }
  unfold SDai.getPricesVolume.
  destruct (SDai.isAppropriatePair self srcToken destToken) eqn:Happ; cbn [negb].
  - split; [intros Hn; destruct Hn; by apply Hpair|]. intros _.
    exists (SDai.quote SDAI_GAS_COST self amounts).
    split; [done|]. split; [done|]. split; [done|].
    split; [by eexists|]. split; [done|].
    unfold onPoolPrices.
    destruct ratio as [r|]; [destruct (num_truthy r)|]; cbn; by eexists.
  - split; [done|]. intros Hd. apply Hpair in Hd. done.
Qed.
End CoordinatorFacts.

(** * The theorems at concrete requests *)

Section Samples.
Import Sample BabydogeMath PricingHelper.
#[local] Existing Instance SafeInteger.



(** C4 at [y = -1], [r_in = 1], [r_out = 2], [f = 0]: the denominator is
    30000 and the numerator -10000; the code answers [1 + 0], the floor
    formula gives [1 + floor(-1/3) = 0]. *)
Lemma buy_quote_floor_fails :
  0 < (feeFactor - 0) * (2 - -1)
  ∧ 1 * -1 * feeFactor ≠ 0
  ∧ getAmountIn (-1) 1 2 0 = 1
  ∧ 1 + (1 * -1 * feeFactor) / ((feeFactor - 0) * (2 - -1)) = 0
  ∧ getAmountIn (-1) 1 2 0
    ≠ 1 + (1 * -1 * feeFactor) / ((feeFactor - 0) * (2 - -1)).
Proof. repeat split; vm_compute; congruence. Qed.

(** C5 at [x = 100], [r0 = 10], [r1 = 2], [f = 0]: the sell output is [1],
    and the input quoted for it is [11], below [x]. *)
Lemma round_trip_below_input :
  0 ≤ 10 ∧ 0 ≤ 2 ∧ 0 ≤ 0 < feeFactor ∧ 0 < 100 ∧ 100 + 10 ≤ 2 ^ 112 - 1
  ∧ getAmountOut 100 10 2 0 = 1
  ∧ getAmountIn (getAmountOut 100 10 2 0) 10 2 0 = 11
  ∧ ¬ (100 ≤ getAmountIn (getAmountOut 100 10 2 0) 10 2 0).
Proof. repeat split; vm_compute; congruence. Qed.

Lemma round_trip_bounds_witness :
  (0 ≤ 1000000 ∧ 0 ≤ 2000000 ∧ 0 ≤ 30 < feeFactor ∧ 0 < 1000
   ∧ 1000 + 1000000 ≤ 2 ^ 112 - 1)
  ∧ getAmountIn (getAmountOut 1000 1000000 2000000 30) 1000000 2000000 30
    ≤ 1000 + 1
  ∧ 1000 ≤ getAmountOut (getAmountIn 1000 1000000 2000000 30) 1000000 2000000 30.
Proof.
  assert (Hhyps : 0 ≤ 1000000 ∧ 0 ≤ 2000000 ∧ 0 ≤ 30 < feeFactor ∧ 0 < 1000
                  ∧ 1000 + 1000000 ≤ 2 ^ 112 - 1).
  { repeat split; vm_compute; congruence. }
  split; [exact Hhyps|].
  destruct Hhyps as (H0 & H1 & Hf & Hx & Hlim).
  destruct (round_trip_bounds 1000000 2000000 30 1000 H0 H1 Hf Hx Hlim)
    as [Hle Hge].
  split; [exact Hle|].
  apply Hge; vm_compute; congruence.
Defined.




(** Why the overlay is stated for distinct objects: an array holding the
    same quote object in two slots is overlaid twice through the one
    object, and both envelopes show the second write. *)
Example overlay_writes_through_shared_object :
  let q :=
    {| prices := [5; 7];
       unit := 1;
       gasCost := GasScalar (100 : Z);
       gasCostL2 := None;
       Types.exchange := "Careless";
       poolIdentifier := None;
       poolAddresses := None;
       data := OtherData EmptyString |} in
  let q' := set_gasCost (GasScalar 300) (set_gasCostL2 (GasScalar 200) q) in
  onPoolPrices (Some (2 : Z)) careless "Careless"
    (Some (mkExchangePrices [q] [0%nat; 0%nat]))
  = Return
      [Envelope.mk "Careless" EmptyString (Some q');
       Envelope.mk "Careless" EmptyString (Some q')].
Proof. reflexivity. Qed.

(** C7 at an adapter that quotes [[5, 7]] for the amounts [[0, 1]]: the
    quote is returned, and its price at index [0] is [5]. *)
Lemma zero_amount_price_not_zero :
  [0; 1] !! 0%nat = Some 0
  ∧ getPoolPrices registry 3000 tokenA tokenB [0; 1] SELL 10 ["Careless"] None
      noFees None
    = Return
        [Envelope.mk "Careless" EmptyString
           (Some
              {| prices := [5; 7];
                 unit := 1;
                 gasCost := GasScalar (100 : Z);
                 gasCostL2 := None;
                 Types.exchange := "Careless";
                 poolIdentifier := None;
                 poolAddresses := None;
                 data := OtherData EmptyString |})]
  ∧ [5; 7] !! 0%nat ≠ Some 0.
Proof. split; [reflexivity|]. split; [reflexivity|]. discriminate. Qed.

Lemma zero_amount_coherence_witness :
  [0; 1000] !! 0%nat = Some 0
  ∧ ∀ p pp,
      p ∈ returned []
            (getPoolPrices registry 3000 tokenA tokenB [0; 1000] SELL 10
               ["Chunked"; "BabyDogeSwap"] None noFees (Some (2 : Z))) →
      Envelope.prices p = Some pp →
      (∀ gs, gasCost pp = GasArray gs →
             ∃ g, gs !! 0%nat = Some g ∧ num_is_zero g = true)
      ∧ (∀ overhead self,
           registry (Envelope.dexKey p)
           = Return (BabydogeSwap.asDex overhead self) →
           prices pp !! 0%nat = Some 0)
      ∧ (∀ gas payload self,
           registry (Envelope.dexKey p) = Return (SDai.asDex gas payload self) →
           prices pp !! 0%nat = Some 0).
Proof.
  split; [reflexivity|].
  apply (zero_amount_coherence registry 3000 tokenA tokenB [0; 1000] SELL 10
           ["Chunked"; "BabyDogeSwap"] None noFees (Some (2 : Z)) 0).
  - reflexivity.
  - reflexivity.
Defined.



End Samples.

(** * Further properties of the sources *)

Section KernelBounds.
Import BabydogeMath.

Lemma getSellPrice_unfold (p : BabydogeSwapPoolOrderedParams) (x : Z) :
  getSellPrice p x = getAmountOut x (reservesIn p) (reservesOut p) (fee p).
Proof. reflexivity. Qed.

Lemma getBuyPrice_unfold (p : BabydogeSwapPoolOrderedParams) (y : Z) :
  getBuyPrice p y = getAmountIn y (reservesIn p) (reservesOut p) (fee p).
Proof. reflexivity. Qed.

(** X1.  [getSellPrice] never quotes a negative amount, nor more than the
    pool holds of the output token. *)
Theorem sell_quote_within_reserve (p : BabydogeSwapPoolOrderedParams) (x : Z) :
  0 ≤ x → 0 ≤ reservesIn p → 0 ≤ reservesOut p → fee p ≤ feeFactor →
  0 ≤ getSellPrice p x ≤ reservesOut p.
Proof.
  intros Hx Hin Hout Hf. rewrite getSellPrice_unfold, getAmountOut_unfold.
  set (a := feeFactor - fee p). assert (Ha : 0 ≤ a) by (unfold a; lia).
  assert (HF : 0 < feeFactor) by (unfold feeFactor; lia).
  destruct (_ <? _); [lia|].
  set (den := reservesIn p * feeFactor + x * a).
  assert (Hden : 0 ≤ den) by (unfold den; nia).
  destruct (Z.eqb_spec den 0); [lia|].
  rewrite quot_is_div by nia. split.
  - apply Z.div_pos; nia.
  - apply Z.div_le_upper_bound; [lia|]. unfold den. nia.
Qed.

(** X2.  Below the reserve limit a larger amount sold never gets a smaller
    quote. *)
Theorem sell_quote_monotone (p : BabydogeSwapPoolOrderedParams) (x x' : Z) :
  0 ≤ x ≤ x' → 0 ≤ reservesIn p → 0 ≤ reservesOut p → fee p ≤ feeFactor →
  reservesIn p + x' ≤ RESERVE_LIMIT →
  getSellPrice p x ≤ getSellPrice p x'.
Proof.
  intros Hx Hin Hout Hf Hlim.
  rewrite !getSellPrice_unfold, !getAmountOut_unfold.
  set (a := feeFactor - fee p). assert (Ha : 0 ≤ a) by (unfold a; lia).
  assert (HF : 0 < feeFactor) by (unfold feeFactor; lia).
  destruct (Z.ltb_spec RESERVE_LIMIT (reservesIn p + x)); [lia|].
  destruct (Z.ltb_spec RESERVE_LIMIT (reservesIn p + x')); [lia|].
  set (R := reservesIn p * feeFactor). assert (HR : 0 ≤ R) by (unfold R; nia).
  set (r := reservesOut p) in *.
  destruct (Z.eqb_spec (R + x * a) 0) as [Hz|Hz];
    destruct (Z.eqb_spec (R + x' * a) 0) as [Hz'|Hz'].
  - lia.
  - rewrite quot_is_div by nia. apply Z.div_pos; nia.
  - nia.
  - assert (Hxa : 0 ≤ x * a) by nia. assert (Hxa' : 0 ≤ x' * a) by nia.
    assert (Hle : x * a ≤ x' * a) by nia.
    set (D := R + x * a) in *. set (D' := R + x' * a) in *.
    assert (HD : 0 < D) by (unfold D in *; lia).
    assert (HD' : 0 < D') by (unfold D' in *; lia).
    set (n := x * a * r). set (n' := x' * a * r).
    assert (Hn : 0 ≤ n) by (unfold n; apply Z.mul_nonneg_nonneg; lia).
    assert (Hn' : 0 ≤ n') by (unfold n'; apply Z.mul_nonneg_nonneg; lia).
    rewrite (quot_is_div n) by lia. rewrite (quot_is_div n') by lia.
    set (q := n / D).
    assert (Hq0 : 0 ≤ q) by (apply Z.div_pos; lia).
    assert (Hq : D * q ≤ n) by (apply Z.mul_div_le; lia).
    apply Z.div_le_lower_bound; [lia|].
    assert (Hcross : n * D' ≤ n' * D).
    { unfold n, n', D, D'.
      assert (x * a * r * R ≤ x' * a * r * R).
      { apply Z.mul_le_mono_nonneg_r; [lia|].
        apply Z.mul_le_mono_nonneg_r; lia. }
      lia. }
    apply (Z.mul_le_mono_pos_r _ _ D); [lia|].
    assert (D * q * D' ≤ n * D') by (apply Z.mul_le_mono_nonneg_r; lia).
    lia.
Qed.

(** X3.  [getBuyPrice] answers [0] for the whole reserve or more; below the
    reserve, for a pool with input reserves, it asks for at least [1], and
    for no less when more is bought. *)
Theorem buy_quote_against_reserve (p : BabydogeSwapPoolOrderedParams) (y y' : Z) :
  0 < reservesIn p → 0 ≤ fee p < feeFactor →
  (reservesOut p ≤ y → getBuyPrice p y = 0)
  ∧ (0 < y ≤ y' → y' < reservesOut p →
     1 ≤ getBuyPrice p y ≤ getBuyPrice p y').
Proof.
  intros Hin Hf. rewrite !getBuyPrice_unfold, !getAmountIn_unfold.
  set (a := feeFactor - fee p). assert (Ha : 0 < a) by (unfold a; lia).
  assert (HF : 0 < feeFactor) by (unfold feeFactor; lia).
  set (r := reservesOut p). set (R := reservesIn p * feeFactor).
  assert (HR : 0 < R) by (unfold R; nia).
  replace (reservesIn p * y * feeFactor) with (R * y) by (unfold R; ring).
  replace (reservesIn p * y' * feeFactor) with (R * y') by (unfold R; ring).
  split.
  - intros Hy. destruct (Z.leb_spec (a * (r - y)) 0); [done | nia].
  - intros Hy Hy'.
    destruct (Z.leb_spec (a * (r - y)) 0); [nia|].
    destruct (Z.leb_spec (a * (r - y')) 0); [nia|].
    destruct (Z.eqb_spec (R * y) 0); [nia|].
    destruct (Z.eqb_spec (R * y') 0); [nia|].
    rewrite !quot_is_div by nia.
    set (q := R * y / (a * (r - y))).
    assert (Hq0 : 0 ≤ q) by (apply Z.div_pos; nia).
    assert (Hq : q * (a * (r - y)) ≤ R * y).
    { unfold q. rewrite Z.mul_comm. apply Z.mul_div_le. nia. }
    split; [lia|].
    assert (q ≤ R * y' / (a * (r - y'))); [|lia].
    apply Z.div_le_lower_bound; [nia|]. nia.
Qed.


End KernelBounds.

Section CoordinatorMore.
Context `{JsNumber}.
Variable getDexByKey : string → Try IDex.t.
Variables FETCH_POOL_IDENTIFIER_TIMEOUT FETCH_POOL_PRICES_TIMEOUT : N.
Import PricingHelper.

#[local] Abbreviation poolPricesOf' :=
  (poolPricesOf getDexByKey FETCH_POOL_PRICES_TIMEOUT).
#[local] Abbreviation getPoolPrices' :=
  (getPoolPrices getDexByKey FETCH_POOL_PRICES_TIMEOUT).
#[local] Abbreviation getPoolIdentifiers' :=
  (getPoolIdentifiers getDexByKey FETCH_POOL_IDENTIFIER_TIMEOUT).
#[local] Abbreviation poolIdentifiersOf' :=
  (poolIdentifiersOf getDexByKey FETCH_POOL_IDENTIFIER_TIMEOUT).
#[local] Abbreviation Quote := (Envelope.ImprovedPoolPrice PoolPrices).

(** X5.  The answer to a list of keys is the answers to its parts, one after
    the other: an adapter's envelopes depend on no other key of the request,
    and the answer follows the order of the keys. *)
Theorem getPoolPrices_concatenates
    (from to : Token) (amounts : list Z) (side : SwapSide) (blockNumber : N)
    (keys1 keys2 : list string)
    (limitPoolsMap : option (gmap string (option (list string))))
    (transferFees : TransferFeeParams) (ratio : option number) :
  getPoolPrices' from to amounts side blockNumber (keys1 ++ keys2)
    limitPoolsMap transferFees ratio
  = (out1 ← getPoolPrices' from to amounts side blockNumber keys1
              limitPoolsMap transferFees ratio;
     out2 ← getPoolPrices' from to amounts side blockNumber keys2
              limitPoolsMap transferFees ratio;
     Return (out1 ++ out2)).
Proof.
  rewrite !getPoolPrices_unfold. cbn.
  unfold validationPass. by rewrite map_app, join_app, filter_app.
Qed.

(** X6.  A key whose [limitPools] entry is an empty list is not asked at
    all: the answer is the one for the request without such keys, whatever
    their adapters are or would do. *)
Theorem getPoolPrices_skips_empty_limits
    (from to : Token) (amounts : list Z) (side : SwapSide) (blockNumber : N)
    (dexKeys : list string)
    (limitPoolsMap : option (gmap string (option (list string))))
    (transferFees : TransferFeeParams) (ratio : option number) :
  getPoolPrices' from to amounts side blockNumber dexKeys limitPoolsMap
    transferFees ratio
  = getPoolPrices' from to amounts side blockNumber
      (filter (fun key => limitPoolsOf limitPoolsMap key ≠ Some []) dexKeys)
      limitPoolsMap transferFees ratio.
Proof.
  rewrite !getPoolPrices_unfold. f_equal. f_equal.
  induction dexKeys as [|key keys IH]; [done|].
  rewrite filter_cons. destruct (decide _) as [Hne|Heq].
  - cbn [map]. change (mjoin (?x :: ?l)) with (x ++ mjoin l). by rewrite IH.
  - rewrite <- IH. apply dec_stable in Heq.
    cbn [map]. change (mjoin (?x :: ?l)) with (x ++ mjoin l).
    unfold poolPricesOf at 1. by rewrite Heq.
Qed.


(** X8.  A ratio that is falsy ([0] or [NaN]) is no ratio: the answer is the
    one of the request without [rollupL1ToL2GasRatio]. *)
Theorem falsy_ratio_is_no_ratio
    (from to : Token) (amounts : list Z) (side : SwapSide) (blockNumber : N)
    (dexKeys : list string)
    (limitPoolsMap : option (gmap string (option (list string))))
    (transferFees : TransferFeeParams) (ratio : number) :
  num_truthy ratio = false →
  getPoolPrices' from to amounts side blockNumber dexKeys limitPoolsMap
    transferFees (Some ratio)
  = getPoolPrices' from to amounts side blockNumber dexKeys limitPoolsMap
      transferFees None.
Proof.
  intros Hfalsy. rewrite !getPoolPrices_unfold. do 3 f_equal.
  apply map_ext. intros key. f_equal.
  unfold poolPricesOf, pricesTask. do 2 f_equal.
  assert (Hon : ∀ dexInstance,
    onPoolPrices (Some ratio) dexInstance key
    = onPoolPrices None dexInstance key).
  { intros dexInstance. unfold onPoolPrices. by rewrite Hfalsy. }
  destruct (limitPoolsOf limitPoolsMap key) as [[|x xs]|]; [done|..];
    destruct (getDexByKey key) as [dexInstance|e]; try done;
    by rewrite Hon.
Qed.



Lemma mapM_first_Throw {A B} (f : A → Try B) (l1 l2 : list A) (x : A)
    (e : JsError) :
  (∀ y, y ∈ l1 → ∃ b, f y = Return b) → f x = Throw e →
  mapM f (l1 ++ x :: l2) = Throw e.
Proof.
  intros Hl1 Hx. induction l1 as [|y l1 IH]; cbn.
  - by rewrite Hx.
  - destruct (Hl1 y) as [b ->]; [apply list_elem_of_here|]. cbn.
    rewrite IH; [done|]. intros z Hz. apply Hl1. by apply list_elem_of_further.
Qed.

(** X10.  In the overlay, the first quote that fails decides the batch. When
    the quotes before it overlay, and its [gasCost] and its
    [getCalldataGasCost] result are sequences of different lengths, the
    adapter's whole batch -- the quotes already overlaid included -- is the
    one envelope with null [prices] and [poolId: 'getCalldataGasCost
    returned wrong array length in dex <key>']. *)
Theorem overlay_length_mismatch_rejects_batch
    (from to : Token) (amounts : list Z) (side : SwapSide) (blockNumber : N)
    (limitPoolsMap : option (gmap string (option (list string))))
    (transferFees : TransferFeeParams) (ratio : number)
    (key : string) (dexInstance : IDex.t) (ms : N) (ep : ExchangePrices)
    (before after : list PoolPrices) (q : PoolPrices) (gs l1s : list number) :
  num_truthy ratio = true →
  limitPoolsOf limitPoolsMap key ≠ Some [] →
  getDexByKey key = Return dexInstance →
  isSrcTokenTransferFeeToBeExchanged transferFees
  && negb (IDex.isFeeOnTransferSupported dexInstance) = false →
  IDex.getPricesVolume dexInstance from to amounts side blockNumber
    (limitPoolsOf limitPoolsMap key) transferFees
  = SettlesAfter ms (Return (Some ep)) →
  (ms = 0 ∨ ms < FETCH_POOL_PRICES_TIMEOUT)%N →
  distinctObjects ep →
  quotes ep = before ++ q :: after →
  (∀ q0, q0 ∈ before →
         ∃ q0', adjustGas ratio dexInstance key q0 = Return q0') →
  gasCost q = GasArray gs →
  IDex.getCalldataGasCost dexInstance (set_gasCostL2 (gasCost q) q)
  = Return (GasArray l1s) →
  length gs ≠ length l1s →
  poolPricesOf' from to amounts side blockNumber limitPoolsMap transferFees
    (Some ratio) key
  = Return
      [Envelope.mk key
         ("getCalldataGasCost returned wrong array length in dex " +:+ key)
         None].
Proof.
  intros Hratio Hlimit Hdex Hskip Hanswer Hms Hdistinct Hquotes Hbefore
    Hgs Hl1 Hlen.
  rewrite (poolPricesOf_answered getDexByKey FETCH_POOL_PRICES_TIMEOUT
             from to amounts side blockNumber limitPoolsMap transferFees
             (Some ratio) key dexInstance ms (Some ep)) by done.
  pose proof (onPoolPrices_distinct ratio dexInstance key ep Hratio Hdistinct)
    as Hon.
  assert (Hq : adjustGas ratio dexInstance key q
               = Throw
                   (Error
                      ("getCalldataGasCost returned wrong array length in dex "
                         +:+ key))).
  { unfold adjustGas. rewrite Hl1. cbn [mbind Try_bind].
    change (gasCost (set_gasCostL2 (gasCost q) q)) with (gasCost q).
    rewrite Hgs. by destruct (Nat.eqb_spec (length gs) (length l1s)). }
  rewrite Hquotes, (mapM_first_Throw _ _ _ _ _ Hbefore Hq) in Hon.
  by rewrite Hon.
Qed.

Lemma filter_all {A} (P : A → Prop) `{∀ x, Decision (P x)} (l : list A) :
  Forall P l → filter P l = l.
Proof.
  induction 1 as [|x l Hx _ IH]; [done|]. by rewrite filter_cons_True, IH.
Qed.

Lemma filter_none {A} (P : A → Prop) `{∀ x, Decision (P x)} (l : list A) :
  Forall (fun x => ¬ P x) l → filter P l = [].
Proof.
  induction 1 as [|x l Hx _ IH]; [done|]. by rewrite filter_cons_False.
Qed.

Lemma filter_join_by_key {A} (g : A → string) (c : string → list A)
    (keys : list string) (key : string) :
  NoDup keys → (∀ k p, p ∈ c k → g p = k) → key ∈ keys →
  filter (fun p => g p = key) (mjoin (map c keys)) = c key.
Proof.
  intros Hnd Hc. induction Hnd as [|k ks Hk Hnd IH]; [by intros ?%elem_of_nil|].
  intros Hkey. cbn [map]. change (mjoin (?x :: ?l)) with (x ++ mjoin l).
  rewrite filter_app.
  apply elem_of_cons in Hkey as [->|Hkey].
  - rewrite filter_all, filter_none; [by rewrite app_nil_r| |].
    + apply Forall_forall. intros p.
      rewrite list_elem_of_join.
      intros (l & Hp & (k' & -> & Hk')%list_elem_of_fmap) Hg.
      rewrite (Hc _ _ Hp) in Hg. congruence.
    + apply Forall_forall. intros p Hp. by apply Hc.
  - rewrite filter_none, IH; [done..|].
    apply Forall_forall. intros p Hp Hg. rewrite (Hc _ _ Hp) in Hg. congruence.
Qed.

(** X11.  The answer is grouped by key, in the order of the keys: for keys
    without repetition it is the concatenation, key by key, of its envelopes
    that carry that key; no envelope carries another key. *)
Theorem answer_grouped_by_key
    (from to : Token) (amounts : list Z) (side : SwapSide) (blockNumber : N)
    (dexKeys : list string)
    (limitPoolsMap : option (gmap string (option (list string))))
    (transferFees : TransferFeeParams) (ratio : option number)
    (out : list Quote) :
  NoDup dexKeys →
  getPoolPrices' from to amounts side blockNumber dexKeys limitPoolsMap
    transferFees ratio = Return out →
  out
  = mjoin
      (map (fun key => filter (fun p => Envelope.dexKey p = key) out) dexKeys)
  ∧ ∀ p, p ∈ out → Envelope.dexKey p ∈ dexKeys.
Proof.
  intros Hnd. rewrite getPoolPrices_unfold. intros [= <-].
  set (c := fun key =>
              returned []
                (poolPricesOf' from to amounts side blockNumber limitPoolsMap
                   transferFees ratio key)).
  assert (Hc : ∀ k p, p ∈ c k → Envelope.dexKey p = k).
  { intros k p Hp. unfold c in Hp.
    destruct (poolPricesOf_returns getDexByKey FETCH_POOL_PRICES_TIMEOUT
                from to amounts side blockNumber limitPoolsMap transferFees
                ratio k) as [l Hl].
    rewrite Hl in Hp. by eapply poolPricesOf_dexKey. }
  split.
  - unfold validationPass.
    transitivity
      (mjoin (map (fun key => filter (fun p => keep amounts p) (c key)) dexKeys)).
    + clear Hnd. induction dexKeys as [|k ks IH]; [done|].
      cbn [map]. change (mjoin (?x :: ?l)) with (x ++ mjoin l).
      by rewrite filter_app, IH.
    + f_equal. apply map_ext_in. intros key Hkey%list_elem_of_In.
      rewrite list_filter_filter.
      rewrite <- (filter_join_by_key Envelope.dexKey c dexKeys key Hnd Hc Hkey)
        at 1.
      rewrite list_filter_filter. apply list_filter_iff. intros p. tauto.
  - intros p. unfold validationPass.
    rewrite list_elem_of_filter, list_elem_of_join.
    intros [_ (l & Hp & (k & -> & Hk)%list_elem_of_fmap)].
    by rewrite (Hc _ _ Hp).
Qed.

End CoordinatorMore.

Section RegistryFacts.
Context `{JsNumber}.
Variable allDexKeys : list string.
Variable serviceGetDexByKey : string → Try IDex.t.
Import PricingHelperRegistry.



End RegistryFacts.

Section StringFacts.

Lemma ltb_antisym (a b : string) : String.ltb b a = true → String.ltb a b = false.
Proof.
  unfold String.ltb. rewrite (String.compare_antisym a b).
  by destruct (String.compare b a).
Qed.

Lemma ltb_total (a b : string) :
  String.ltb b a = false → a ≠ b → String.ltb a b = true.
Proof.
  unfold String.ltb. rewrite (String.compare_antisym a b).
  destruct (String.compare b a) eqn:Hc; cbn; try done.
  apply String.compare_eq_iff in Hc. congruence.
Qed.

Lemma sortedPairJoin_comm (a b : string) :
  sortedPairJoin a b = sortedPairJoin b a.
Proof.
  unfold sortedPairJoin.
  destruct (String.ltb b a) eqn:Hba.
  - by rewrite (ltb_antisym a b Hba).
  - destruct (decide (a = b)) as [->|Hne].
    + by rewrite Hba.
    + by rewrite (ltb_total a b Hba Hne).
Qed.

Lemma lower_ascii_idemp (c : ascii) : lower_ascii (lower_ascii c) = lower_ascii c.
Proof. by destruct c as [[] [] [] [] [] [] [] []]. Qed.

Lemma toLowerCase_idemp (s : string) : toLowerCase (toLowerCase s) = toLowerCase s.
Proof.
  induction s as [|c s IH]; [done|]. cbn. by rewrite lower_ascii_idemp, IH.
Qed.

Lemma toLowerCase_app (s1 s2 : string) :
  toLowerCase (s1 +:+ s2) = toLowerCase s1 +:+ toLowerCase s2.
Proof.
  induction s1 as [|c s1 IH]; [done|].
  change (toLowerCase (String c s1 +:+ s2))
    with (String (lower_ascii c) (toLowerCase (s1 +:+ s2))).
  by rewrite IH.
Qed.

End StringFacts.

Section BabydogeAdapterFacts.
Context `{JsNumber}.
Import BabydogeMath.

(** X13.  The pool identifier of [BabydogeSwap] does not depend on the
    direction of the swap: [getPoolIdentifiers] answers the same for [(from,
    to)] and [(to, from)], on either side and at any block, and with at most
    one identifier. *)
Theorem babydoge_identifier_symmetric
    (self : BabydogeSwap.t) (from to : Token) (side side' : SwapSide)
    (blockNumber blockNumber' : N) :
  BabydogeSwap.getPoolIdentifiers self from to side blockNumber
  = BabydogeSwap.getPoolIdentifiers self to from side' blockNumber'
  ∧ ∃ ids,
      BabydogeSwap.getPoolIdentifiers self from to side blockNumber
      = SettlesAfter 0 (Return ids)
      ∧ (length ids ≤ 1)%nat.
Proof.
  unfold BabydogeSwap.getPoolIdentifiers, BabydogeSwap.poolIdentifierOf.
  split.
  - rewrite (sortedPairJoin_comm
               (toLowerCase (address (BabydogeSwap.wrapETH self from)))).
    destruct (decide (toLowerCase (address (BabydogeSwap.wrapETH self from))
                      = toLowerCase (address (BabydogeSwap.wrapETH self to))))
      as [Heq|Hne].
    + by rewrite (bool_decide_eq_true_2 _ Heq),
         (bool_decide_eq_true_2 _ (eq_sym Heq)).
    + by rewrite (bool_decide_eq_false_2 _ Hne),
         (bool_decide_eq_false_2 _ (not_eq_sym Hne)).
  - eexists. split; [reflexivity|]. destruct (bool_decide _); cbn; lia.
Qed.

(** X14.  [getPricesVolume] of [BabydogeSwap] agrees with its
    [getPoolIdentifiers]: limited to the identifiers that
    [getPoolIdentifiers] lists it answers as without a limit, and limited to
    a list without the pair's identifier it answers [null] at once, without
    a look at the chain. *)
Theorem babydoge_limit_pools
    (self : BabydogeSwap.t) (from to : Token) (amounts : list Z)
    (side : SwapSide) (blockNumber : N) :
  (∀ ids,
     BabydogeSwap.getPoolIdentifiers self from to side blockNumber
     = SettlesAfter 0 (Return ids) →
     BabydogeSwap.getPricesVolume self from to amounts side blockNumber
       (Some ids)
     = BabydogeSwap.getPricesVolume self from to amounts side blockNumber None)
  ∧ (∀ limitPools,
       BabydogeSwap.poolIdentifierOf self (BabydogeSwap.wrapETH self from)
         (BabydogeSwap.wrapETH self to) ∉ limitPools →
       BabydogeSwap.getPricesVolume self from to amounts side blockNumber
         (Some limitPools)
       = SettlesAfter 0 (Return None)).
Proof.
  unfold BabydogeSwap.getPoolIdentifiers, BabydogeSwap.getPricesVolume.
  split.
  - intros ids. destruct (bool_decide _); [done|].
    intros [= <-]. cbn. by rewrite bool_decide_eq_false_2 by (by intros []).
  - intros limitPools Hout. destruct (bool_decide _); [done|].
    assert (Hall : forallb
              (fun p => bool_decide
                          (p ≠ BabydogeSwap.poolIdentifierOf self
                                 (BabydogeSwap.wrapETH self from)
                                 (BabydogeSwap.wrapETH self to)))
              limitPools = true).
    { apply forallb_forall. intros p Hp%list_elem_of_In.
      apply bool_decide_eq_true. intros ->. done. }
    by rewrite Hall.
Qed.

End BabydogeAdapterFacts.

Section AdaptersInTheCoordinator.
Context `{JsNumber}.
Variable getDexByKey : string → Try IDex.t.
Variable FETCH_POOL_PRICES_TIMEOUT : N.
Import PricingHelper BabydogeMath.

#[local] Abbreviation poolPricesOf' :=
  (poolPricesOf getDexByKey FETCH_POOL_PRICES_TIMEOUT).
#[local] Abbreviation getPoolPrices' :=
  (getPoolPrices getDexByKey FETCH_POOL_PRICES_TIMEOUT).
#[local] Abbreviation Quote := (Envelope.ImprovedPoolPrice PoolPrices).

Lemma single_scalar_quote_answer
    (from to : Token) (amounts : list Z) (side : SwapSide) (blockNumber : N)
    (limitPoolsMap : option (gmap string (option (list string))))
    (transferFees : TransferFeeParams) (ratio : option number)
    (key pid : string) (q' : PoolPrices) (g : number) :
  poolPricesOf' from to amounts side blockNumber limitPoolsMap transferFees
    ratio key = Return [Envelope.mk key pid (Some q')] →
  length (prices q') = length amounts →
  gasCost q' = GasScalar g →
  getPoolPrices' from to amounts side blockNumber [key] limitPoolsMap
    transferFees ratio
  = Return
      (if decide (Forall (fun price => price = 0) (prices q')) then []
       else [Envelope.mk key pid (Some q')]).
Proof.
  intros Hl Hlen Hgas. rewrite getPoolPrices_unfold. cbn [map].
  rewrite Hl. f_equal.
  change (validationPass amounts [Envelope.mk key pid (Some q')]
          = if decide (Forall (fun price => price = 0) (prices q')) then []
            else [Envelope.mk key pid (Some q')]).
  unfold validationPass. rewrite filter_cons, filter_nil.
  assert (Hkeep : keep amounts (Envelope.mk key pid (Some q')) = true
                  ↔ ¬ Forall (fun price => price = 0) (prices q')).
  { rewrite (keep_quote amounts (Envelope.mk key pid (Some q')) q' eq_refl).
    unfold wellFormedQuote. rewrite Hgas.
    split; [by intros (_ & _ & ?) | by intros ?]. }
  destruct (decide (Forall _ _)) as [Hzero|Hnonzero].
  - rewrite decide_False; [done|]. rewrite Is_true_true, Hkeep. tauto.
  - rewrite decide_True; [done|]. by rewrite Is_true_true, Hkeep.
Qed.

(** X15.  A [BabydogeSwap] behind the coordinator. For a pair of different
    tokens whose pool is not excluded by [limitPools], when the pool state
    arrives before the deadline the answer to a request for that key is the
    one envelope with the quote of the kernel ([getBuyPrice] on BUY, else
    [getSellPrice], amount by amount), under the pool's identifier -- unless
    every price is [0n], and then the answer is empty: the quote of this
    adapter never fails the other validation rules. *)
Theorem babydoge_quote_in_answer
    (from to : Token) (amounts : list Z) (side : SwapSide) (blockNumber : N)
    (limitPoolsMap : option (gmap string (option (list string))))
    (transferFees : TransferFeeParams) (ratio : option number)
    (key : string) (overhead : number) (self : BabydogeSwap.t)
    (pairParam : BabydogeSwapPoolOrderedParams) (ms : N) :
  getDexByKey key = Return (BabydogeSwap.asDex overhead self) →
  let from' := BabydogeSwap.wrapETH self from in
  let to' := BabydogeSwap.wrapETH self to in
  let id := BabydogeSwap.poolIdentifierOf self from' to' in
  let kernel := fun amount =>
    if decide (side = BUY) then getBuyPrice pairParam amount
    else getSellPrice pairParam amount in
  toLowerCase (address from') ≠ toLowerCase (address to') →
  match limitPoolsOf limitPoolsMap key with
  | Some limitPools => id ∈ limitPools
  | None => True
  end →
  BabydogeSwap.pairOrderedParams self from' to' blockNumber
  = SettlesAfter ms (Return (Some pairParam)) →
  (ms = 0 ∨ ms < FETCH_POOL_PRICES_TIMEOUT)%N →
  ∃ q',
    prices q' = map kernel amounts
    ∧ poolIdentifier q' = Some id
    ∧ getPoolPrices' from to amounts side blockNumber [key] limitPoolsMap
        transferFees ratio
      = Return
          (if decide (Forall (fun amount => kernel amount = 0) amounts)
           then []
           else [Envelope.mk key id (Some q')]).
Proof.
  intros Hdex from' to' id kernel Hdiff Hlimit Hstate Hms.
  set (q := BabydogeSwap.quote self from' to' amounts side pairParam).
  assert (Hprices : prices q = map kernel amounts).
  { unfold q, BabydogeSwap.quote, kernel. cbn [prices].
    by destruct (decide (side = BUY)). }
  assert (Hanswer :
    IDex.getPricesVolume (BabydogeSwap.asDex overhead self) from to amounts
      side blockNumber (limitPoolsOf limitPoolsMap key) transferFees
    = SettlesAfter ms (Return (Some (fresh [q])))).
  { cbn. unfold BabydogeSwap.getPricesVolume. fold from' to' id.
    rewrite bool_decide_eq_false_2 by done.
    assert (Hexcl :
      match limitPoolsOf limitPoolsMap key with
      | Some ps => forallb (fun p => bool_decide (p ≠ id)) ps
      | None => false
      end = false).
    { destruct (limitPoolsOf limitPoolsMap key) as [ps|]; [|done].
      apply not_true_is_false. intros Hall.
      rewrite forallb_forall in Hall.
      specialize (Hall id (proj1 (list_elem_of_In _ _) Hlimit)).
      by apply bool_decide_eq_true in Hall. }
    rewrite Hexcl, Hstate. done. }
  assert (Hnonempty : limitPoolsOf limitPoolsMap key ≠ Some []).
  { intros Heq. rewrite Heq in Hlimit. by apply elem_of_nil in Hlimit. }
  assert (Hon : ∃ q' g,
    onPoolPrices ratio (BabydogeSwap.asDex overhead self) key (Some (fresh [q]))
    = Return [Envelope.mk key id (Some q')]
    ∧ prices q' = prices q ∧ poolIdentifier q' = Some id
    ∧ gasCost q' = GasScalar g).
  { unfold onPoolPrices.
    destruct ratio as [r|]; [destruct (num_truthy r)|]; cbn;
      do 2 eexists; (split; [reflexivity|]); done. }
  destruct Hon as (q' & g & Hon & Hp' & Hid & Hg).
  exists q'. rewrite Hp', Hprices. split; [done|]. split; [done|].
  rewrite (single_scalar_quote_answer from to amounts side blockNumber
             limitPoolsMap transferFees ratio key id q' g).
  - rewrite Hp', Hprices.
    destruct (decide (Forall _ (map kernel amounts))) as [Hz|Hnz];
      destruct (decide (Forall _ amounts)) as [Hz'|Hnz']; try done.
    + destruct Hnz'. by apply Forall_fmap in Hz.
    + destruct Hnz. by apply Forall_fmap.
  - rewrite (poolPricesOf_answered getDexByKey FETCH_POOL_PRICES_TIMEOUT
               from to amounts side blockNumber limitPoolsMap transferFees
               ratio key _ ms (Some (fresh [q])) Hnonempty Hdex);
      [by rewrite Hon | apply andb_false_r | done | done].
  - by rewrite Hp', Hprices, length_map.
  - done.
Qed.

(** X16.  An [SDai] behind the coordinator. For DAI against sDAI, with no
    source transfer fee in play and a [limitPools] entry that is not an
    empty list, the answer to a request for that key is the one envelope
    whose prices are the amounts -- unless every amount is [0n] (or there is
    none), and then the answer is empty. *)
Theorem sdai_quote_in_answer
    (from to : Token) (amounts : list Z) (side : SwapSide) (blockNumber : N)
    (limitPoolsMap : option (gmap string (option (list string))))
    (transferFees : TransferFeeParams) (ratio : option number)
    (key : string) (gas payload : number) (self : SDai.t) :
  getDexByKey key = Return (SDai.asDex gas payload self) →
  SDai.isAppropriatePair self from to = true →
  limitPoolsOf limitPoolsMap key ≠ Some [] →
  isSrcTokenTransferFeeToBeExchanged transferFees = false →
  ∃ q',
    prices q' = amounts
    ∧ getPoolPrices' from to amounts side blockNumber [key] limitPoolsMap
        transferFees ratio
      = Return
          (if decide (Forall (fun amount => amount = 0) amounts) then []
           else [Envelope.mk key EmptyString (Some q')]).
Proof.
  intros Hdex Hpair Hlimit Hfee.
  set (q := SDai.quote gas self amounts).
  assert (Hanswer :
    IDex.getPricesVolume (SDai.asDex gas payload self) from to amounts
      side blockNumber (limitPoolsOf limitPoolsMap key) transferFees
    = SettlesAfter 0 (Return (Some (fresh [q])))).
  { cbn. unfold SDai.getPricesVolume. by rewrite Hpair. }
  assert (Hon : ∃ q' g,
    onPoolPrices ratio (SDai.asDex gas payload self) key (Some (fresh [q]))
    = Return [Envelope.mk key EmptyString (Some q')]
    ∧ prices q' = amounts ∧ gasCost q' = GasScalar g).
  { unfold onPoolPrices.
    destruct ratio as [r|]; [destruct (num_truthy r)|]; cbn;
      do 2 eexists; (split; [reflexivity|]); done. }
  destruct Hon as (q' & g & Hon & Hp' & Hg).
  exists q'. split; [done|].
  rewrite (single_scalar_quote_answer from to amounts side blockNumber
             limitPoolsMap transferFees ratio key EmptyString q' g).
  - by rewrite Hp'.
  - rewrite (poolPricesOf_answered getDexByKey FETCH_POOL_PRICES_TIMEOUT
               from to amounts side blockNumber limitPoolsMap transferFees
               ratio key _ 0 (Some (fresh [q])) Hlimit Hdex);
      [by rewrite Hon | by rewrite Hfee | done | by left].
  - by rewrite Hp'.
  - done.
Qed.

(** X17.  An [Airswap] behind the coordinator never quotes: whatever its
    makers answer, every envelope of the answer that carries its key has
    null [prices]. *)
Theorem airswap_never_quotes
    (from to : Token) (amounts : list Z) (side : SwapSide) (blockNumber : N)
    (dexKeys : list string)
    (limitPoolsMap : option (gmap string (option (list string))))
    (transferFees : TransferFeeParams) (ratio : option number)
    (key : string) (ETHER_ADDRESS : string) (payload : number)
    (self : Airswap.t) (out : list Quote) :
  getDexByKey key = Return (Airswap.asDex ETHER_ADDRESS payload self) →
  getPoolPrices' from to amounts side blockNumber dexKeys limitPoolsMap
    transferFees ratio = Return out →
  ∀ p, p ∈ out → Envelope.dexKey p = key → Envelope.prices p = None.
Proof.
  intros Hdex Hout p Hp Hkey.
  destruct (Envelope.prices p) as [pp|] eqn:Hpp; [|done].
  destruct (answer_origin getDexByKey FETCH_POOL_PRICES_TIMEOUT
              _ _ _ _ _ _ _ _ _ _ _ Hout Hp) as (_ & l & Hl & Hpl).
  rewrite Hkey in Hl.
  destruct (contribution_quote_origin getDexByKey FETCH_POOL_PRICES_TIMEOUT
              _ _ _ _ _ _ _ _ _ _ _ _ _ Hdex Hl Hpl Hpp)
    as (ms & ep & Hanswer & _).
  revert Hanswer. cbn. unfold Airswap.getPricesVolume.
  destruct (bool_decide _); [done|].
  destruct (match limitPoolsOf limitPoolsMap key with
            | Some pools => _ | None => _ end) as [ms0 [pools|e]|]; try done.
  destruct (Airswap.makerLevels _ _ _ _ _ _) as [ms1 [u|e]|]; done.
Qed.

End AdaptersInTheCoordinator.

Section SDaiFacts.
Context `{JsNumber}.

(** X18.  [SDai] lists a pool exactly for the pairs it quotes, in either
    direction, and its quote does not depend on [limitPools]. *)
Theorem sdai_identifiers_match_quotes
    (gas : number) (self : SDai.t) (srcToken destToken : Token)
    (amounts : list Z) (side : SwapSide) (blockNumber : N)
    (limitPools limitPools' : option (list string)) :
  SDai.isAppropriatePair self srcToken destToken
  = SDai.isAppropriatePair self destToken srcToken
  ∧ ((∃ id,
        SDai.getPoolIdentifiers self srcToken destToken side blockNumber
        = SettlesAfter 0 (Return [id]))
     ↔ ∃ q,
         SDai.getPricesVolume gas self srcToken destToken amounts side
           blockNumber limitPools
         = SettlesAfter 0 (Return (Some [q])))
  ∧ SDai.getPricesVolume gas self srcToken destToken amounts side blockNumber
      limitPools
    = SDai.getPricesVolume gas self srcToken destToken amounts side
        blockNumber limitPools'.
Proof.
  split; [apply orb_comm|]. split; [|done].
  unfold SDai.getPoolIdentifiers, SDai.getPricesVolume.
  destruct (SDai.isAppropriatePair self srcToken destToken); cbn.
  - split; intros _; by eexists.
  - split; by intros [? [=]].
Qed.

End SDaiFacts.

Section AirswapFacts.
Context `{JsNumber}.
Variable ETHER_ADDRESS : string.

(** X19.  [normalizeToken] gives a lower-case address and changes nothing
    when applied again. *)
Theorem airswap_normalizeToken_idempotent (token : Token) :
  Airswap.normalizeToken ETHER_ADDRESS
    (Airswap.normalizeToken ETHER_ADDRESS token)
  = Airswap.normalizeToken ETHER_ADDRESS token
  ∧ toLowerCase (address (Airswap.normalizeToken ETHER_ADDRESS token))
    = address (Airswap.normalizeToken ETHER_ADDRESS token).
Proof.
  unfold Airswap.normalizeToken. cbn [address decimals].
  destruct (decide (toLowerCase (address token) = ETHER_ADDRESS)) as [Heq|Hne].
  - rewrite (bool_decide_eq_true_2 _ Heq).
    change (toLowerCase Airswap.AddressZero) with Airswap.AddressZero.
    split; [|done]. by destruct (bool_decide _).
  - rewrite (bool_decide_eq_false_2 _ Hne), toLowerCase_idemp.
    by rewrite (bool_decide_eq_false_2 _ Hne).
Qed.

Lemma lower_ascii_underscore (c : ascii) :
  lower_ascii c = "_"%char → c = "_"%char.
Proof. by destruct c as [[] [] [] [] [] [] [] []]. Qed.

Lemma splitOn_nonempty (sep : ascii) (s : string) : splitOn sep s ≠ [].
Proof.
  induction s as [|c s IH]; [done|]. cbn [splitOn].
  destruct (Ascii.eqb c sep); [done|]. by destruct (splitOn sep s).
Qed.

Lemma splitOn_absent (sep : ascii) (s : string) :
  Forall (fun c => c ≠ sep) (list_ascii_of_string s) → splitOn sep s = [s].
Proof.
  induction s as [|c s IH]; [done|]. cbn [splitOn list_ascii_of_string].
  intros [Hc Hs]%Forall_cons. rewrite (IH Hs).
  destruct (Ascii.eqb_spec c sep); [done|done].
Qed.

Lemma splitOn_app (sep : ascii) (s1 s2 : string) :
  splitOn sep (s1 +:+ String sep s2) = splitOn sep s1 ++ splitOn sep s2.
Proof.
  induction s1 as [|c s1 IH].
  - change (EmptyString +:+ String sep s2) with (String sep s2).
    cbn [splitOn]. by rewrite Ascii.eqb_refl.
  - change (String c s1 +:+ String sep s2)
      with (String c (s1 +:+ String sep s2)).
    cbn [splitOn]. rewrite IH.
    pose proof (splitOn_nonempty sep s1) as Hne.
    destruct (Ascii.eqb c sep); [done|].
    by destruct (splitOn sep s1).
Qed.

Lemma last_splitOn_app (sep : ascii) (s1 s2 : string) :
  last (splitOn sep (s1 +:+ String sep s2)) = last (splitOn sep s2).
Proof.
  rewrite splitOn_app, last_app.
  pose proof (splitOn_nonempty sep s2) as Hne.
  destruct (last (splitOn sep s2)) eqn:Hlast; [done|].
  by apply last_None in Hlast.
Qed.

Lemma string_app_assoc (a b c : string) : (a +:+ b) +:+ c = a +:+ (b +:+ c).
Proof.
  induction a as [|x a IH]; [done|].
  change (String x ((a +:+ b) +:+ c) = String x (a +:+ (b +:+ c))).
  by rewrite IH.
Qed.

Lemma toLowerCase_no_underscore (s : string) :
  Forall (fun c => c ≠ "_"%char) (list_ascii_of_string s) →
  Forall (fun c => c ≠ "_"%char) (list_ascii_of_string (toLowerCase s)).
Proof.
  induction s as [|c s IH]; [done|]. cbn.
  intros [Hc Hs]%Forall_cons. constructor; [|by apply IH].
  intros Hl. by apply lower_ascii_underscore in Hl.
Qed.

(** X20.  The maker's name is read back from a pool identifier: for a name
    without underscore, [getMakerUrlFromKey] of the identifier that
    [getPoolIdentifier] builds is the name in lower case, whatever the key
    of the adapter and the addresses are. *)
Theorem airswap_maker_read_back
    (self : Airswap.t) (srcAddress destAddress makerName : string) :
  Forall (fun c => c ≠ "_"%char) (list_ascii_of_string makerName) →
  Airswap.getMakerUrlFromKey
    (Airswap.getPoolIdentifier self srcAddress destAddress makerName)
  = Some (toLowerCase makerName).
Proof.
  intros Hname. unfold Airswap.getMakerUrlFromKey, Airswap.getPoolIdentifier.
  rewrite !toLowerCase_app.
  set (k := toLowerCase (Airswap.dexKey self)).
  set (pair := toLowerCase (Airswap.forgePairTokenKey srcAddress destAddress)).
  change (k +:+ toLowerCase "_" +:+ pair +:+ toLowerCase "_"
            +:+ toLowerCase makerName)
    with (k +:+ (String "_" pair +:+ String "_" (toLowerCase makerName))).
  rewrite <- string_app_assoc.
  rewrite last_splitOn_app, splitOn_absent; [done|].
  by apply toLowerCase_no_underscore.
Qed.

End AirswapFacts.

Section RouteFacts.
Variable ETHER_ADDRESS : string.
Variable NULL_ADDRESS : string.
Variable BigInt : string → Try Z.
Import BabydogeRoute.


(** X22.  [fixPath] keeps the length of the path and every token that is not
    at its ends; it is the identity when neither the source nor the
    destination is the native token, and applying it twice is applying it
    once. *)
Theorem fixPath_touches_only_the_ends
    (path : list string) (srcToken destToken : string) :
  length (fixPath ETHER_ADDRESS path srcToken destToken) = length path
  ∧ (∀ i token,
       (0 < i)%nat → (i < length path - 1)%nat → path !! i = Some token →
       fixPath ETHER_ADDRESS path srcToken destToken !! i = Some token)
  ∧ (toLowerCase srcToken ≠ toLowerCase ETHER_ADDRESS →
     toLowerCase destToken ≠ toLowerCase ETHER_ADDRESS →
     fixPath ETHER_ADDRESS path srcToken destToken = path)
  ∧ fixPath ETHER_ADDRESS
      (fixPath ETHER_ADDRESS path srcToken destToken) srcToken destToken
    = fixPath ETHER_ADDRESS path srcToken destToken.
Proof.
  assert (Hlen : length (fixPath ETHER_ADDRESS path srcToken destToken)
                 = length path).
  { unfold fixPath. apply length_imap. }
  split; [done|]. split; [|split].
  - intros i token Hi Hlast Htoken. unfold fixPath.
    rewrite list_lookup_imap, Htoken. cbn.
    rewrite (bool_decide_eq_false_2 (i = 0%nat)) by lia.
    rewrite (bool_decide_eq_false_2 (i = (length path - 1)%nat)) by lia.
    done.
  - intros Hsrc Hdest. unfold fixPath.
    rewrite (bool_decide_eq_false_2 _ Hsrc), (bool_decide_eq_false_2 _ Hdest).
    apply list_eq. intros i. rewrite list_lookup_imap.
    destruct (path !! i); cbn; [|done]. by rewrite !andb_false_r.
  - apply list_eq. intros i. unfold fixPath at 1.
    rewrite list_lookup_imap, Hlen. unfold fixPath.
    rewrite list_lookup_imap.
    destruct (path !! i); cbn; [|done].
    by destruct (_ || _).
Qed.

(** X23.  [findPair] caches what it finds: once it has answered for [(from,
    to)], asking again gives the same pair and leaves the cache as it is,
    whatever the factory would say now; the cache only grows. A pair that
    was not cached is made of the two tokens, the one with the smaller
    lower-case address first. *)
Theorem findPair_caches
    (getPair : string → string → Try string)
    (pairs pairs' : gmap string BabydogeSwapPair) (from to : Token)
    (found : BabydogeSwapPair) :
  findPair NULL_ADDRESS getPair pairs from to = Return (Some found, pairs') →
  (∀ getPair',
     findPair NULL_ADDRESS getPair' pairs' from to = Return (Some found, pairs'))
  ∧ pairs ⊆ pairs'
  ∧ (pairs' ≠ pairs →
     String.ltb (toLowerCase (address (token0 found)))
       (toLowerCase (address (token1 found))) = true
     ∧ ((token0 found = from ∧ token1 found = to)
        ∨ (token0 found = to ∧ token1 found = from))).
Proof.
  unfold findPair.
  destruct (bool_decide _) eqn:Hsame; [done|].
  apply bool_decide_eq_false in Hsame.
  destruct (String.ltb (toLowerCase (address from)) (toLowerCase (address to)))
    eqn:Hlt.
  - set (key := toLowerCase (address from) +:+ "-" +:+ toLowerCase (address to)).
    destruct (pairs !! key) as [cached|] eqn:Hkey.
    + intros [= <- <-]. rewrite Hkey. done.
    + destruct (getPair _ _) as [exchange|e]; [|done]. cbn.
      intros [= <- <-]. rewrite lookup_insert_eq.
      split; [done|]. split; [by apply insert_subseteq|].
      intros _. destruct (bool_decide _); cbn; by rewrite Hlt; auto.
  - set (key := toLowerCase (address from) +:+ "-"
                  +:+ toLowerCase (address from)).
    destruct (pairs !! key) as [cached|] eqn:Hkey.
    + intros [= <- <-]. rewrite Hkey. done.
    + destruct (getPair _ _) as [exchange|e]; [|done]. cbn.
      intros [= <- <-]. rewrite lookup_insert_eq.
      split; [done|]. split; [by apply insert_subseteq|].
      intros _.
      assert (String.ltb (toLowerCase (address to)) (toLowerCase (address from))
              = true) by (apply ltb_total; done).
      destruct (bool_decide _); cbn; auto.
Qed.

Lemma string_length_app (u v : string) :
  String.length (u +:+ v) = (String.length u + String.length v)%nat.
Proof.
  induction u as [|x u IHu]; [reflexivity|].
  change (S (String.length (u +:+ v)) = S (String.length u + String.length v)).
  by rewrite IHu.
Qed.

Lemma string_app_inj_r (a b s : string) : a +:+ s = b +:+ s → a ≠ b → False.
Proof.
  intros Heq Hne. apply Hne.
  assert (Hlen : String.length a = String.length b).
  { apply (f_equal String.length) in Heq.
    rewrite !string_length_app in Heq. lia. }
  clear Hne. revert b Heq Hlen.
  induction a as [|x a IH]; intros [|y b] Heq Hlen; try done.
  change (String x (a +:+ s) = String y (b +:+ s)) in Heq.
  cbn in Hlen. injection Heq as -> Heq. f_equal. apply IH; [done|lia].
Qed.

(** X24.  The cache of [findPair] is keyed by direction: the key is made of
    [from] and of the larger of the two addresses. So an answer for [(from,
    to)] does not serve the other direction: if [(to, from)] had to ask the
    factory before, it still has to afterwards. *)
Theorem findPair_caches_per_direction
    (getPair getPair' : string → string → Try string)
    (pairs pairs' : gmap string BabydogeSwapPair) (from to : Token)
    (found : BabydogeSwapPair) (e : JsError) :
  findPair NULL_ADDRESS getPair pairs from to = Return (Some found, pairs') →
  (∀ t0 t1, getPair' t0 t1 = Throw e) →
  findPair NULL_ADDRESS getPair' pairs to from = Throw e →
  findPair NULL_ADDRESS getPair' pairs' to from = Throw e.
Proof.
  unfold findPair.
  destruct (bool_decide _) eqn:Hsame; [done|].
  apply bool_decide_eq_false in Hsame.
  rewrite (bool_decide_eq_false_2
             (toLowerCase (address to) = toLowerCase (address from)))
    by congruence.
  intros Hfirst Hfactory. revert Hfirst.
  destruct (String.ltb (toLowerCase (address from)) (toLowerCase (address to)))
    eqn:Hlt.
  - rewrite (ltb_antisym _ _ Hlt).
    destruct (pairs !! (_ +:+ "-" +:+ toLowerCase (address to)))
      as [cached|] eqn:Hkey; [by intros [= <- <-]|].
    destruct (getPair _ _) as [exchange|e0]; [|done]. cbn.
    intros [= <- <-]. rewrite lookup_insert_ne.
    + destruct (pairs !! (toLowerCase (address to) +:+ _)); [done|].
      by rewrite Hfactory.
    + intros Heq. by apply string_app_inj_r in Heq.
  - rewrite (ltb_total _ _ Hlt) by congruence.
    destruct (pairs !! (toLowerCase (address from) +:+ _))
      as [cached|] eqn:Hkey; [by intros [= <- <-]|].
    destruct (getPair _ _) as [exchange|e0]; [|done]. cbn.
    intros [= <- <-]. rewrite lookup_insert_ne.
    + destruct (pairs !! (toLowerCase (address to) +:+ _)); [done|].
      by rewrite Hfactory.
    + intros Heq. by apply string_app_inj_r in Heq.
Qed.

End RouteFacts.

Section VirtuSwapFacts.
Context `{JsNumber} `{VirtuSwap.Library}.

Lemma mapM_Return_length {A B} (f : A → Try B) (l : list A) (ys : list B) :
  mapM f l = Return ys → length ys = length l.
Proof.
  intros Hm. symmetry. exact (Forall2_length _ _ _ (mapM_Return_Forall2 f l ys Hm)).
Qed.

Lemma quoteOf_Some (self : VirtuSwap.t) (from to : Token) (amounts : list Z)
    (side : SwapSide) (blockNumber : N) (id : string) (q : VirtuSwap.Quote) :
  VirtuSwap.quoteOf self from to amounts side blockNumber id = Return (Some q) →
  VirtuSwap.poolIdentifier q = id
  ∧ VirtuSwap.exchange q = VirtuSwap.dexKey self
  ∧ length (VirtuSwap.prices q) = length amounts
  ∧ VirtuSwap.poolAddresses q = drop 1 (splitOn "_" id)
  ∧ length (splitOn "_" id)
    = (if VirtuSwap.isVirtual (VirtuSwap.data q) then 3 else 2)%nat
  ∧ VirtuSwap.gasCost q
    = (if VirtuSwap.isVirtual (VirtuSwap.data q)
       then VirtuSwap.virtualPoolGasCost self
       else VirtuSwap.realPoolGasCost self).
Proof.
  unfold VirtuSwap.quoteOf.
  destruct (splitOn "_" id) as [|k [|a [|b [|c rest]]]]; try done.
  - destruct (VirtuSwap.getPoolState self a blockNumber) as [[st|]|e];
      cbn; try done.
    destruct (VirtuSwap.sortBalances _ _ _ _) as [bs|e]; cbn; [|done].
    destruct (mapM _ amounts) as [ps|e] eqn:Hps; cbn; [|done].
    destruct (if bool_decide (side = SELL) then _ else _) as [u|e];
      cbn; [|done].
    intros [= <-]. cbn. by rewrite (mapM_Return_length _ _ _ Hps).
  - destruct (VirtuSwap.getPoolState self a blockNumber) as [[jk|]|e];
      cbn; try done.
    destruct (VirtuSwap.getPoolState self b blockNumber) as [[ik|]|e];
      cbn; try done.
    destruct (VirtuSwap.getVirtualPool jk ik blockNumber) as [vp|e];
      cbn; [|done].
    destruct (mapM _ amounts) as [ps|e] eqn:Hps; cbn; [|done].
    destruct (if bool_decide (side = SELL) then _ else _) as [u|e];
      cbn; [|done].
    intros [= <-]. cbn. by rewrite (mapM_Return_length _ _ _ Hps).
Qed.

Lemma kept_quotes_sublist {A B} (f : A → Try (option B)) (g : B → A)
    (l : list A) (ys : list (option B)) :
  mapM f l = Return ys →
  (∀ x q, f x = Return (Some q) → g q = x) →
  map g (omap (fun q => q) ys) `sublist_of` l.
Proof.
  intros Hm Hg. apply mapM_Return_Forall2 in Hm.
  induction Hm as [|x y l ys Hx _ IH]; [done|].
  destruct y as [q|]; cbn.
  - rewrite (Hg x q Hx). by apply sublist_skip.
  - by apply sublist_cons.
Qed.

Lemma kept_quotes_elem {A B} (f : A → Try (option B)) (l : list A)
    (ys : list (option B)) (q : B) :
  mapM f l = Return ys → q ∈ omap (fun q => q) ys →
  ∃ x, x ∈ l ∧ f x = Return (Some q).
Proof.
  intros Hm. apply mapM_Return_Forall2 in Hm.
  induction Hm as [|x y l ys Hx _ IH]; cbn; [by intros ?%elem_of_nil|].
  destruct y as [q'|].
  - intros [->|Hin]%elem_of_cons.
    + exists x. split; [apply list_elem_of_here|done].
    + destruct (IH Hin) as (x' & Hx' & Hq). exists x'.
      split; [by apply list_elem_of_further|done].
  - intros Hin. destruct (IH Hin) as (x' & Hx' & Hq). exists x'.
    split; [by apply list_elem_of_further|done].
Qed.

(** X25.  With [limitPools] given, [getPricesVolume] of [VirtuSwap] settles
    at once, without asking for identifiers.  It resolves to [null]
    exactly for a pair of equal tokens.  Otherwise the quotes it resolves
    to carry identifiers of [limitPools], in their order, that start with
    the adapter's key; each has the adapter's key as [exchange], as many
    prices as there are amounts, and as [poolAddresses] the segments of
    its identifier after the first: one for a real pool, two for a
    virtual one, with the gas cost of that kind. *)
Theorem virtuswap_quotes_come_from_limit_pools
    (self : VirtuSwap.t) (srcToken destToken : Token) (amounts : list Z)
    (side : SwapSide) (blockNumber : N) (limitPools : list string) :
  ∃ outcome,
    VirtuSwap.getPricesVolume self srcToken destToken amounts side
      blockNumber (Some limitPools)
    = SettlesAfter 0 outcome
    ∧ ∀ r, outcome = Return r →
        match r with
        | None =>
            toLowerCase (address (VirtuSwap.wrapETH self srcToken))
            = toLowerCase (address (VirtuSwap.wrapETH self destToken))
        | Some qs =>
            toLowerCase (address (VirtuSwap.wrapETH self srcToken))
            ≠ toLowerCase (address (VirtuSwap.wrapETH self destToken))
            ∧ map VirtuSwap.poolIdentifier qs `sublist_of` limitPools
            ∧ ∀ q, q ∈ qs →
                String.prefix (VirtuSwap.dexKey self)
                  (VirtuSwap.poolIdentifier q) = true
                ∧ VirtuSwap.exchange q = VirtuSwap.dexKey self
                ∧ length (VirtuSwap.prices q) = length amounts
                ∧ VirtuSwap.poolAddresses q
                  = drop 1 (splitOn "_" (VirtuSwap.poolIdentifier q))
                ∧ length (VirtuSwap.poolAddresses q)
                  = (if VirtuSwap.isVirtual (VirtuSwap.data q)
                     then 2 else 1)%nat
                ∧ VirtuSwap.gasCost q
                  = (if VirtuSwap.isVirtual (VirtuSwap.data q)
                     then VirtuSwap.virtualPoolGasCost self
                     else VirtuSwap.realPoolGasCost self)
        end.
Proof.
  unfold VirtuSwap.getPricesVolume.
  destruct (bool_decide _) eqn:Hsame.
  - apply bool_decide_eq_true in Hsame. eexists. split; [reflexivity|].
    by intros r [= <-].
  - apply bool_decide_eq_false in Hsame. eexists. split; [reflexivity|].
    intros r. cbn [mbind Try_bind].
    set (ids := filter _ limitPools).
    destruct (mapM _ ids) as [ys|e] eqn:Hys; cbn; [|done].
    intros [= <-]. split; [done|]. split.
    + transitivity ids; [|apply sublist_filter].
      apply (kept_quotes_sublist _ _ _ _ Hys).
      intros x q Hq. by apply quoteOf_Some in Hq as (Hid & _).
    + intros q Hq.
      destruct (kept_quotes_elem _ _ _ _ Hys Hq) as (id & Hid & Hquote).
      apply list_elem_of_filter in Hid as [Hprefix _].
      apply quoteOf_Some in Hquote
        as (Hident & Hex & Hlen & Haddr & Hparts & Hgas).
      rewrite Hident. repeat split; try done.
      rewrite Haddr, length_drop, Hparts.
      by destruct (VirtuSwap.isVirtual _).
Qed.

(** X26.  The identifier of a real pool is read back: when neither the
    adapter's key nor the pool address holds an underscore, a quote for
    [`${dexKey}_${poolAddress}`] is the quote of a real pool at that
    address, on the path from the source to the destination; and there is
    no quote when the adapter has no state for that pool. *)
Theorem virtuswap_real_pool_read_back
    (self : VirtuSwap.t) (from to : Token) (amounts : list Z)
    (side : SwapSide) (blockNumber : N) (poolAddress : string) :
  Forall (fun c => c ≠ "_"%char)
    (list_ascii_of_string (VirtuSwap.dexKey self)) →
  Forall (fun c => c ≠ "_"%char) (list_ascii_of_string poolAddress) →
  let id := VirtuSwap.dexKey self +:+ "_" +:+ poolAddress in
  (∀ q,
     VirtuSwap.quoteOf self from to amounts side blockNumber id
     = Return (Some q) →
     VirtuSwap.poolAddresses q = [poolAddress]
     ∧ VirtuSwap.data q
       = VirtuSwap.RealPoolData (VirtuSwap.config_router self)
           [address from; address to]
     ∧ VirtuSwap.gasCost q = VirtuSwap.realPoolGasCost self)
  ∧ (VirtuSwap.getPoolState self poolAddress blockNumber = Return None →
     VirtuSwap.quoteOf self from to amounts side blockNumber id
     = Return None).
Proof.
  intros Hkey Hpool id.
  assert (Hsplit : splitOn "_" id = [VirtuSwap.dexKey self; poolAddress]).
  { unfold id. change ("_" +:+ poolAddress) with (String "_" poolAddress).
    by rewrite splitOn_app, (splitOn_absent _ _ Hkey),
      (splitOn_absent _ _ Hpool). }
  unfold VirtuSwap.quoteOf. rewrite Hsplit. split.
  - intros q.
    destruct (VirtuSwap.getPoolState self poolAddress blockNumber)
      as [[st|]|e]; cbn; try done.
    destruct (VirtuSwap.sortBalances _ _ _ _) as [bs|e]; cbn; [|done].
    destruct (mapM _ amounts) as [ps|e]; cbn; [|done].
    destruct (if bool_decide (side = SELL) then _ else _) as [u|e];
      cbn; [|done].
    by intros [= <-].
  - by intros ->.
Qed.

(** X27.  [this.pools] is an object literal, and an identifier of
    [limitPools] can name a property that it inherits: for a pair of
    different tokens, when [limitPools] holds an identifier
    [`${key}_${name}`] that starts with the adapter's key, with [name] a
    property of [Object.prototype] that is no pool, [getPricesVolume]
    rejects. *)
Theorem virtuswap_inherited_name_rejects
    (self : VirtuSwap.t) (srcToken destToken : Token) (amounts : list Z)
    (side : SwapSide) (blockNumber : N) (limitPools : list string)
    (id key name : string) :
  toLowerCase (address (VirtuSwap.wrapETH self srcToken))
  ≠ toLowerCase (address (VirtuSwap.wrapETH self destToken)) →
  id ∈ limitPools →
  String.prefix (VirtuSwap.dexKey self) id = true →
  splitOn "_" id = [key; name] →
  name ∈ VirtuSwap.objectPrototypeKeys →
  VirtuSwap.pools self !! name = None →
  ∃ e,
    VirtuSwap.getPricesVolume self srcToken destToken amounts side
      blockNumber (Some limitPools)
    = SettlesAfter 0 (Throw e).
Proof.
  intros Hdiff Hin Hprefix Hsplit Hname Hpool.
  unfold VirtuSwap.getPricesVolume.
  rewrite (bool_decide_eq_false_2 _ Hdiff). cbn [promise_then mbind Try_bind].
  destruct (mapM_elem_Throw
              (VirtuSwap.quoteOf self (VirtuSwap.wrapETH self srcToken)
                 (VirtuSwap.wrapETH self destToken) amounts side blockNumber)
              (filter (fun id => String.prefix (VirtuSwap.dexKey self) id = true)
                 limitPools)
              id (Error "this.pools[pool]?.getState is not a function"))
    as [e He].
  - by apply list_elem_of_filter.
  - unfold VirtuSwap.quoteOf. rewrite Hsplit.
    unfold VirtuSwap.getPoolState. rewrite Hpool.
    by rewrite (bool_decide_eq_true_2 _ Hname).
  - exists e. by rewrite He.
Qed.

End VirtuSwapFacts.

(** * The further properties at concrete requests *)

Section Scenarios.
Import Sample BabydogeMath PricingHelper BabydogeRoute.
#[local] Existing Instance SafeInteger.
#[local] Existing Instance Scenario.library.

Lemma sell_quote_within_reserve_witness :
  (0 ≤ 1000 ∧ 0 ≤ reservesIn Scenario.pool ∧ 0 ≤ reservesOut Scenario.pool
   ∧ fee Scenario.pool ≤ feeFactor)
  ∧ 0 ≤ getSellPrice Scenario.pool 1000 ≤ reservesOut Scenario.pool.
Proof.
  split; [repeat split; vm_compute; congruence|].
  apply (sell_quote_within_reserve Scenario.pool 1000);
    vm_compute; congruence.
Defined.

Lemma sell_quote_monotone_witness :
  (0 ≤ 1000 ≤ 2000 ∧ fee Scenario.pool ≤ feeFactor
   ∧ reservesIn Scenario.pool + 2000 ≤ RESERVE_LIMIT)
  ∧ getSellPrice Scenario.pool 1000 ≤ getSellPrice Scenario.pool 2000.
Proof.
  split; [repeat split; vm_compute; congruence|].
  apply (sell_quote_monotone Scenario.pool 1000 2000);
    try split; vm_compute; congruence.
Defined.

Lemma buy_quote_against_reserve_witness :
  (0 < reservesIn Scenario.pool ∧ 0 ≤ fee Scenario.pool < feeFactor)
  ∧ getBuyPrice Scenario.pool 2000000 = 0
  ∧ 1 ≤ getBuyPrice Scenario.pool 1000 ≤ getBuyPrice Scenario.pool 2000.
Proof.
  split; [repeat split; vm_compute; congruence|].
  destruct (buy_quote_against_reserve Scenario.pool 1000 2000)
    as [_ Hbelow]; [vm_compute; congruence|split; vm_compute; congruence|].
  destruct (buy_quote_against_reserve Scenario.pool 2000000 2000000)
    as [Hwhole _]; [vm_compute; congruence|split; vm_compute; congruence|].
  split.
  - apply Hwhole. vm_compute; congruence.
  - apply Hbelow; [split|]; vm_compute; congruence.
Defined.


Lemma falsy_ratio_is_no_ratio_witness :
  num_truthy (0 : Z) = false
  ∧ getPoolPrices registry 3000 tokenA tokenB [0; 1000] SELL 10
      ["Chunked"; "BabyDogeSwap"] None noFees (Some (0 : Z))
    = getPoolPrices registry 3000 tokenA tokenB [0; 1000] SELL 10
        ["Chunked"; "BabyDogeSwap"] None noFees None.
Proof.
  split; [reflexivity|].
  apply (falsy_ratio_is_no_ratio registry 3000 tokenA tokenB [0; 1000] SELL 10
           ["Chunked"; "BabyDogeSwap"] None noFees (0 : Z)).
  reflexivity.
Defined.

(** The first quote of [Scenario.ragged] overlays, the second has three
    gas costs against two calldata costs. *)
Lemma overlay_length_mismatch_witness :
  (IDex.getPricesVolume Scenario.ragged tokenA tokenB [0; 1000] SELL 10 None
     noFees
   = SettlesAfter 5
       (Return
          (Some (fresh [Scenario.raggedFirst; Scenario.raggedSecond])))
   ∧ (∃ q', adjustGas (2 : Z) Scenario.ragged "Ragged" Scenario.raggedFirst
            = Return q')
   ∧ length [0 : Z; 100 : Z; 200 : Z] ≠ length [0 : Z; 50 : Z])
  ∧ poolPricesOf Scenario.registry 3000 tokenA tokenB [0; 1000] SELL 10 None
      noFees (Some (2 : Z)) "Ragged"
    = Return
        [Envelope.mk "Ragged"
           "getCalldataGasCost returned wrong array length in dex Ragged"
           None].
Proof.
  split.
  { split; [reflexivity|]. split; [eexists; reflexivity|]. cbn. lia. }
  apply (overlay_length_mismatch_rejects_batch Scenario.registry 3000 tokenA
           tokenB [0; 1000] SELL 10 None noFees (2 : Z) "Ragged"
           Scenario.ragged 5
           (fresh [Scenario.raggedFirst; Scenario.raggedSecond])
           [Scenario.raggedFirst] [] Scenario.raggedSecond
           [0 : Z; 100 : Z; 200 : Z] [0 : Z; 50 : Z]).
  - reflexivity.
  - discriminate.
  - reflexivity.
  - reflexivity.
  - reflexivity.
  - right. lia.
  - split; [apply NoDup_seq|]. repeat constructor.
  - reflexivity.
  - intros q0 Hq0. apply list_elem_of_singleton in Hq0 as ->.
    eexists. reflexivity.
  - reflexivity.
  - reflexivity.
  - cbn. lia.
Defined.

Lemma answer_grouped_by_key_witness :
  NoDup ["Chunked"; "Careless"]
  ∧ ∃ out,
      getPoolPrices registry 3000 tokenA tokenB [0; 1000] SELL 10
        ["Chunked"; "Careless"] None noFees None = Return out
      ∧ length out = 2%nat
      ∧ out
        = mjoin
            (map (fun key => filter (fun p => Envelope.dexKey p = key) out)
               ["Chunked"; "Careless"])
      ∧ ∀ p, p ∈ out → Envelope.dexKey p ∈ ["Chunked"; "Careless"].
Proof.
  assert (Hkeys : NoDup ["Chunked"; "Careless"]).
  { apply NoDup_cons. split; [|apply NoDup_singleton].
    intros Hin. apply list_elem_of_singleton in Hin. discriminate. }
  split; [exact Hkeys|].
  eexists. split; [reflexivity|]. split; [reflexivity|].
  apply (answer_grouped_by_key registry 3000 tokenA tokenB [0; 1000] SELL 10
           ["Chunked"; "Careless"] None noFees None);
    [exact Hkeys|reflexivity].
Defined.

(** [Sample.babydoge] answers after 120 ms, before a deadline of 3 s; the
    amounts [0] and [1000] sell for [0] and [1992]. *)
Lemma babydoge_quote_in_answer_witness :
  (registry "BabyDogeSwap" = Return (BabydogeSwap.asDex (70 : Z) babydoge)
   ∧ toLowerCase (address tokenA) ≠ toLowerCase (address tokenB)
   ∧ (120 < 3000)%N)
  ∧ ∃ q',
      prices q' = [0; 1992]
      ∧ poolIdentifier q'
        = Some (BabydogeSwap.poolIdentifierOf babydoge tokenA tokenB)
      ∧ getPoolPrices registry 3000 tokenA tokenB [0; 1000] SELL 10
          ["BabyDogeSwap"] None noFees None
        = Return
            [Envelope.mk "BabyDogeSwap"
               (BabydogeSwap.poolIdentifierOf babydoge tokenA tokenB)
               (Some q')].
Proof.
  split; [split; [reflexivity|split; [discriminate|lia]]|].
  destruct (babydoge_quote_in_answer (H := SafeInteger) registry 3000 tokenA tokenB [0; 1000]
              SELL 10 None noFees None "BabyDogeSwap" (70 : Z) babydoge
              Scenario.pool 120)
    as (q' & Hprices & Hid & Hanswer).
  - reflexivity.
  - discriminate.
  - exact I.
  - reflexivity.
  - right. lia.
  - exists q'. split; [exact Hprices|]. split; [exact Hid|].
    rewrite Hanswer. reflexivity.
Defined.

Lemma sdai_quote_in_answer_witness :
  (SDai.isAppropriatePair Scenario.sdaiAdapter Scenario.dai Scenario.sdai
   = true
   ∧ isSrcTokenTransferFeeToBeExchanged noFees = false)
  ∧ ∃ q',
      prices q' = [0; 1000]
      ∧ getPoolPrices Scenario.registry 3000 Scenario.dai Scenario.sdai
          [0; 1000] SELL 10 ["SDai"] None noFees (Some (2 : Z))
        = Return [Envelope.mk "SDai" EmptyString (Some q')].
Proof.
  split; [split; reflexivity|].
  destruct (sdai_quote_in_answer (H := SafeInteger) Scenario.registry 3000 Scenario.dai
              Scenario.sdai [0; 1000] SELL 10 None noFees (Some (2 : Z))
              "SDai" (30000 : Z) (60 : Z) Scenario.sdaiAdapter)
    as (q' & Hprices & Hanswer).
  - reflexivity.
  - reflexivity.
  - discriminate.
  - reflexivity.
  - exists q'. split; [exact Hprices|]. rewrite Hanswer. reflexivity.
Defined.

Lemma airswap_never_quotes_witness :
  ∃ out,
    getPoolPrices Scenario.registry 3000 tokenA tokenB [0; 1000] SELL 10
      ["Careless"; "Airswap"] None noFees None = Return out
    ∧ (∃ p, p ∈ out ∧ Envelope.dexKey p = "Airswap")
    ∧ ∀ p, p ∈ out → Envelope.dexKey p = "Airswap" → Envelope.prices p = None.
Proof.
  eexists. split; [reflexivity|]. split.
  - eexists. split; [apply list_elem_of_further, list_elem_of_here|].
    reflexivity.
  - apply (airswap_never_quotes (H := SafeInteger) Scenario.registry 3000 tokenA tokenB [0; 1000]
             SELL 10 ["Careless"; "Airswap"] None noFees None "Airswap"
             Scenario.ETHER_ADDRESS (60 : Z) Scenario.airswap);
      reflexivity.
Defined.

Lemma airswap_maker_read_back_witness :
  Airswap.getPoolIdentifier Scenario.airswap "0xAbC0" "0xdef1" "Maker.Example"
  = "airswap_0xabc0_0xdef1_maker.example"
  ∧ Airswap.getMakerUrlFromKey
      (Airswap.getPoolIdentifier Scenario.airswap "0xAbC0" "0xdef1"
         "Maker.Example")
    = Some "maker.example".
Proof.
  split; [reflexivity|].
  apply (airswap_maker_read_back Scenario.airswap "0xAbC0" "0xdef1"
           "Maker.Example").
  repeat (apply Forall_cons; split; [discriminate|]). apply Forall_nil_2.
Defined.


Lemma findPair_caches_witness :
  findPair "0x00" Scenario.factory ∅ tokenB tokenA
  = Return
      (Some (mkPair tokenA tokenB (Some "0xpool") None),
       <["0xdef1-0xdef1" := mkPair tokenA tokenB (Some "0xpool") None]> ∅)
  ∧ findPair "0x00" Scenario.unreachable
      (<["0xdef1-0xdef1" := mkPair tokenA tokenB (Some "0xpool") None]> ∅)
      tokenB tokenA
    = Return
        (Some (mkPair tokenA tokenB (Some "0xpool") None),
         <["0xdef1-0xdef1" := mkPair tokenA tokenB (Some "0xpool") None]> ∅).
Proof.
  split; [reflexivity|].
  apply (findPair_caches "0x00" Scenario.factory ∅
           (<["0xdef1-0xdef1" := mkPair tokenA tokenB (Some "0xpool") None]> ∅)
           tokenB tokenA (mkPair tokenA tokenB (Some "0xpool") None)).
  reflexivity.
Defined.

(** After [(A, B)] is answered and cached under [0xabc0-0xdef1], the
    direction [(B, A)] looks under [0xdef1-0xdef1] and asks the factory. *)
Lemma findPair_caches_per_direction_witness :
  findPair "0x00" Scenario.factory ∅ tokenA tokenB
  = Return
      (Some (mkPair tokenA tokenB (Some "0xpool") None),
       <["0xabc0-0xdef1" := mkPair tokenA tokenB (Some "0xpool") None]> ∅)
  ∧ findPair "0x00" Scenario.unreachable
      (<["0xabc0-0xdef1" := mkPair tokenA tokenB (Some "0xpool") None]> ∅)
      tokenB tokenA
    = Throw (Error "connection refused").
Proof.
  split; [reflexivity|].
  apply (findPair_caches_per_direction "0x00" Scenario.factory
           Scenario.unreachable ∅
           (<["0xabc0-0xdef1" := mkPair tokenA tokenB (Some "0xpool") None]> ∅)
           tokenA tokenB (mkPair tokenA tokenB (Some "0xpool") None)
           (Error "connection refused"));
    reflexivity.
Defined.

(** Of three identifiers, one does not start with the key and one names no
    pool: the pool [0xpool] is quoted. *)
Lemma virtuswap_quotes_witness :
  VirtuSwap.getPricesVolume Scenario.virtuswap tokenA tokenB [0; 1000] SELL 10
    (Some ["Other_0xpool"; "VirtuSwap_0xpool"; "VirtuSwap_0xnone"])
  = SettlesAfter 0 (Return (Some [Scenario.virtuswapQuote]))
  ∧ map VirtuSwap.poolIdentifier [Scenario.virtuswapQuote]
    `sublist_of` ["Other_0xpool"; "VirtuSwap_0xpool"; "VirtuSwap_0xnone"]
  ∧ VirtuSwap.poolAddresses Scenario.virtuswapQuote
    = drop 1 (splitOn "_" "VirtuSwap_0xpool").
Proof.
  split; [reflexivity|].
  destruct (virtuswap_quotes_come_from_limit_pools Scenario.virtuswap tokenA
              tokenB [0; 1000] SELL 10
              ["Other_0xpool"; "VirtuSwap_0xpool"; "VirtuSwap_0xnone"])
    as (outcome & Heq & Hr).
  injection Heq as <-.
  destruct (Hr _ eq_refl) as (_ & Hsub & Hq).
  split; [exact Hsub|].
  exact (proj1 (proj2 (proj2 (proj2
           (Hq Scenario.virtuswapQuote (list_elem_of_here _ _)))))).
Defined.

Lemma virtuswap_real_pool_read_back_witness :
  VirtuSwap.quoteOf Scenario.virtuswap tokenA tokenB [0; 1000] SELL 10
    "VirtuSwap_0xpool"
  = Return (Some Scenario.virtuswapQuote)
  ∧ VirtuSwap.poolAddresses Scenario.virtuswapQuote = ["0xpool"]
  ∧ VirtuSwap.quoteOf Scenario.virtuswap tokenA tokenB [0; 1000] SELL 10
      "VirtuSwap_0xnone"
    = Return None.
Proof.
  split; [reflexivity|]. split.
  - apply (virtuswap_real_pool_read_back Scenario.virtuswap tokenA tokenB
             [0; 1000] SELL 10 "0xpool").
    + repeat (apply Forall_cons; split; [discriminate|]). apply Forall_nil_2.
    + repeat (apply Forall_cons; split; [discriminate|]). apply Forall_nil_2.
    + reflexivity.
  - apply (virtuswap_real_pool_read_back Scenario.virtuswap tokenA tokenB
             [0; 1000] SELL 10 "0xnone").
    + repeat (apply Forall_cons; split; [discriminate|]). apply Forall_nil_2.
    + repeat (apply Forall_cons; split; [discriminate|]). apply Forall_nil_2.
    + reflexivity.
Defined.

Lemma virtuswap_inherited_name_witness :
  splitOn "_" "VirtuSwap_constructor" = ["VirtuSwap"; "constructor"]
  ∧ ∃ e,
      VirtuSwap.getPricesVolume Scenario.virtuswap tokenA tokenB [0; 1000]
        SELL 10 (Some ["VirtuSwap_0xpool"; "VirtuSwap_constructor"])
      = SettlesAfter 0 (Throw e).
Proof.
  split; [reflexivity|].
  apply (virtuswap_inherited_name_rejects Scenario.virtuswap tokenA tokenB
           [0; 1000] SELL 10 ["VirtuSwap_0xpool"; "VirtuSwap_constructor"]
           "VirtuSwap_constructor" "VirtuSwap" "constructor").
  - discriminate.
  - apply list_elem_of_further, list_elem_of_here.
  - reflexivity.
  - reflexivity.
  - apply list_elem_of_here.
  - reflexivity.
Defined.

End Scenarios.
